(** * devnest: the command layer of [devnest/lib/cli.py]

    A shallow embedding of [JenkinsNodeShell.main] for the actions that
    reserve, extend and release a node and that manage groups and
    capabilities, together with the properties the specification states
    about them.

    [cli.py] drives objects defined in [devnest.lib.node] and
    [devnest.lib.jenkins].  Their accessors are record projections here;
    their mutating methods are modelled from the specification and are
    marked as such.  The [list] action, the renderers and [parse_args]
    come after the commands.  The [setup] action (XML import), the
    [argparse] parser and the exit codes of the top-level [main] are not
    part of this development. *)

From Stdlib Require Import ZArith Ascii.
From stdpp Require Import base strings list gmap pretty sorting.

Local Open Scope Z_scope.
Local Open Scope string_scope.
Local Open Scope list_scope.

(** ** Data model *)

Module NodeStatus.
(** Modelled from the spec: the enumeration [devnest.lib.node.NodeStatus],
    imported by [cli.py] and not defined there (spec section 3). *)
Inductive t :=
  ONLINE | OFFLINE | JOB_RUNNING | RESERVED | REPROVISION_PENDING | UNKNOWN.

#[global] Instance eq_dec : EqDecision t.
Proof. solve_decision. Defined.
End NodeStatus.

(** Modelled from the spec: the reservation carried by a node (section 3).
    Timestamps are seconds. *)
Record ReservationState := {
  owner : string;
  created_at : Z;
  expires_at : Z
}.

(** One node as [cli.py] sees it through its accessors: [get_name],
    [get_node_status], [get_node_url], [node_details.get_node_labels],
    [node_details.get_capabilities], [node_details.get_physical_ram] and the
    reservation read by [get_reservation_owner] and
    [get_reservation_endtime]. *)
Record Node := {
  name : string;
  status : NodeStatus.t;
  node_url : string;
  physical_ram : string;
  groups : gset string;
  capabilities : gmap string string;
  reservation : option ReservationState
}.

Definition get_name (n : Node) : string := name n.
Definition get_node_status (n : Node) : NodeStatus.t := status n.
Definition get_node_url (n : Node) : string := node_url n.
Definition get_physical_ram (n : Node) : string := physical_ram n.
Definition get_capabilities (n : Node) : gmap string string := capabilities n.
Definition get_capability (key : string) (n : Node) : option string :=
  capabilities n !! key.

(** [None] is Python's [None]: the node carries no reservation. *)
Definition get_reservation_owner (n : Node) : option string :=
  owner <$> reservation n.
Definition get_reservation_endtime (n : Node) : option Z :=
  expires_at <$> reservation n.

(** The labels in code-point order; [cli.py] never depends on the order in
    which [get_node_labels] lists them except through [sorted] and [set]. *)
Definition get_node_labels (n : Node) : list string :=
  merge_sort String.le (elements (groups n)).

Definition set_status (s : NodeStatus.t) (n : Node) : Node :=
  {| name := name n; status := s; node_url := node_url n;
     physical_ram := physical_ram n; groups := groups n;
     capabilities := capabilities n; reservation := reservation n |}.

Definition set_reservation (r : option ReservationState) (n : Node) : Node :=
  {| name := name n; status := status n; node_url := node_url n;
     physical_ram := physical_ram n; groups := groups n;
     capabilities := capabilities n; reservation := r |}.

Definition set_groups (g : gset string) (n : Node) : Node :=
  {| name := name n; status := status n; node_url := node_url n;
     physical_ram := physical_ram n; groups := g;
     capabilities := capabilities n; reservation := reservation n |}.

Definition set_capabilities (c : gmap string string) (n : Node) : Node :=
  {| name := name n; status := status n; node_url := node_url n;
     physical_ram := physical_ram n; groups := groups n;
     capabilities := c; reservation := reservation n |}.

(** A node object returned by [get_nodes]: the position of the node in the
    registry and the record fetched there. *)
Definition JenkinsNode : Type := nat * Node.

(** ** Python helpers *)

(** [str.split(sep)] for a one-character separator. *)
Fixpoint split (sep : Ascii.ascii) (s : string) : list string :=
  match s with
  | EmptyString => [""]
  | String c s' =>
      if Ascii.eqb c sep then "" :: split sep s'
      else match split sep s' with
           | w :: ws => String c w :: ws
           | [] => [String c ""]
           end
  end.

(** [sep.join(l)]. *)
Definition join (sep : string) (l : list string) : string :=
  String.concat sep l.

(** ["%s" % x] for a value that is a string or [None]. *)
Definition str_opt (x : option string) : string := default "None" x.

(** Truthiness of an option value that is a string or [None]. *)
Definition truthy (x : option string) : bool :=
  match x with
  | Some s => negb (String.eqb s "")
  | None => false
  end.

(** [list(set(l))]: the distinct elements of [l].  Python fixes no order
    for them; the properties below use membership and distinctness only. *)
Definition list_set (l : list string) : list string :=
  elements (list_to_set l : gset string).

(** ** Exceptions, the world and the command monad *)

(** [CommandError] is what [cli.py] raises.  [OwnershipError] is modelled
    from the spec (section 7): it is what [extend_reservation], which is
    not in [cli.py], raises. *)
Inductive exn :=
  | CommandError (err_msg : string)
  | OwnershipError.

Inductive Result (A : Type) :=
  | Ok (a : A)
  | Raise (e : exn).
Arguments Ok {A} a.
Arguments Raise {A} e.

(** What a command can change or leave behind: the nodes of the registry
    in fetch order, the lines printed, and the [get_nodes] requests made so
    far, each with its regex and its group. *)
Record World := {
  nodes : list Node;
  stdout : list string;
  requests : list (option string * option string)
}.

Definition with_nodes (l : list Node) (w : World) : World :=
  {| nodes := l; stdout := stdout w; requests := requests w |}.

Definition with_line (line : string) (w : World) : World :=
  {| nodes := nodes w; stdout := stdout w ++ [line];
     requests := requests w |}.

Definition with_request (q : option string * option string) (w : World)
    : World :=
  {| nodes := nodes w; stdout := stdout w; requests := requests w ++ [q] |}.

(** What a command reads: the clock and the name Jenkins knows the caller
    by ([get_jenkins_username]). *)
Record Env := {
  now : Z;
  jenkins_username : string
}.

Definition M (A : Type) : Type := World -> Result A * World.

Definition ret {A} (a : A) : M A := fun w => (Ok a, w).

Definition bind {A B} (m : M A) (k : A -> M B) : M B :=
  fun w =>
    match m w with
    | (Ok a, w') => k a w'
    | (Raise e, w') => (Raise e, w')
    end.

Definition raise {A} (e : exn) : M A := fun w => (Raise e, w).

Notation "'do' x <- m ; k" := (bind m (fun x => k))
  (at level 10, x pattern, m at level 100, k at level 200).
Notation "'run' m ; k" := (bind m (fun _ => k))
  (at level 10, m at level 100, k at level 200).

Definition print (line : string) : M unit := fun w =>
  (Ok tt, with_line line w).

(** A method of a node object writes the node back at its position.  The
    write always goes through: the failures of the registry itself
    (transport, authentication) are outside this model. *)
Definition push (i : nat) (n : Node) : M unit := fun w =>
  (Ok tt, with_nodes (<[i := n]> (nodes w)) w).

(** [for x in l: body(x)]. *)
Fixpoint for_each {A} (l : list A) (body : A -> M unit) : M unit :=
  match l with
  | [] => ret tt
  | x :: l' => run body x; for_each l' body
  end.

(** ** Columns and the table of nodes *)

Module Columns.
Inductive t :=
  HOST | STATE | RAM | CPU | RESERVED | UNTIL | GROUPS | CAPABILITIES.

(** [get_columns(Columns.DEFAULT)], that is the columns of
    ['host,state,ram,cpu,reserved,until']. *)
Definition DEFAULT : list t := [HOST; STATE; RAM; CPU; RESERVED; UNTIL].

Definition to_str (column : t) : string :=
  match column with
  | HOST => "Host"
  | STATE => "State"
  | RAM => "RAM"
  | CPU => "CPU"
  | RESERVED => "Reserved by"
  | UNTIL => "Reserved until"
  | GROUPS => "Groups"
  | CAPABILITIES => "Capabilities"
  end.
End Columns.

(** The Python values that end up in a cell of the table. *)
Inductive Cell :=
  | CStr (s : string)
  | CNone
  | CTime (t : Z)
  | CDict (d : gmap string string).

Definition cell_of (x : option string) : Cell :=
  match x with
  | Some s => CStr s
  | None => CNone
  end.

(** Modelled from the spec: what [Node.reserve] returns, "the reservation
    info (owner, node name, expiry)" of section 4.2. *)
Record ReservationInfo := {
  info_owner : string;
  info_node : string;
  info_expires_at : Z
}.

(** What [cli.py] uses and neither it nor the specification defines: the
    regex engine behind [get_nodes], the third-party table renderer,
    [json.dumps], the text of a status, and the two points that the
    specification leaves to the registry or to a precondition. *)
Class Collaborators := {
  (** [re.search(pattern, name)] succeeds *)
  re_search : string -> string -> bool;
  (** [terminaltables.AsciiTable(table_data).table] *)
  AsciiTable : list (list Cell) -> string;
  (** [json.dumps(info)] *)
  json_dumps : ReservationInfo -> string;
  (** the text [get_node_status_str] gives for a status *)
  status_str : NodeStatus.t -> string;
  (** "the registry's natural idle state" a released node goes to when it
      is not brought online (section 4.2) *)
  idle_status : Node -> NodeStatus.t;
  (** what [extend_reservation] does outside its precondition, on a node
      that carries no reservation *)
  extend_unreserved : Node -> Z -> bool -> Result Node
}.

Section Commands.
Context {C : Collaborators}.

Definition get_node_status_str (n : Node) : string := status_str (status n).

(** [Columns.to_data(node, column)]. *)
Definition to_data (node : Node) (column : Columns.t) : Cell :=
  match column with
  | Columns.HOST => CStr (get_name node)
  | Columns.STATE => CStr (get_node_status_str node)
  | Columns.RAM => CStr (get_physical_ram node)
  | Columns.CPU => cell_of (get_capability "cpu" node)
  | Columns.RESERVED => cell_of (get_reservation_owner node)
  | Columns.UNTIL => from_option CTime CNone (get_reservation_endtime node)
  | Columns.GROUPS => CStr (join "," (get_node_labels node))
  | Columns.CAPABILITIES => CDict (get_capabilities node)
  end.

(** [_get_node_table_str(jenkins_nodes)], with [columns] left at its
    default as at every call below. *)
Definition _get_node_table_str (jenkins_nodes : list JenkinsNode) : string :=
  let columns_list := Columns.DEFAULT in
  let table_data := [CStr <$> (Columns.to_str <$> columns_list)] in
  let node_list :=
    (fun jenkins_node : JenkinsNode =>
       to_data jenkins_node.2 <$> columns_list) <$> jenkins_nodes in
  AsciiTable (table_data ++ node_list).

(** *** Node selection *)

Definition name_matches (node_regex : option string) (n : Node) : bool :=
  match node_regex with
  | None => true
  | Some pattern => re_search pattern (name n)
  end.

Definition in_nest (group : option string) (n : Node) : bool :=
  match group with
  | None => true
  | Some g => bool_decide (g ∈ groups n)
  end.

Fixpoint select_from (i : nat) (reg : list Node)
    (node_regex group : option string) : list JenkinsNode :=
  match reg with
  | [] => []
  | n :: reg' =>
      if name_matches node_regex n && in_nest group n
      then (i, n) :: select_from (S i) reg' node_regex group
      else select_from (S i) reg' node_regex group
  end.

(** Modelled from the spec: [JenkinsInstance.get_nodes(node_regex, group)],
    which is not in [cli.py].  Section 4.1: no pattern selects every node,
    a pattern those whose name it matches; [group = None] is all nests, a
    group those nodes whose groups contain it; the order is fetch order.
    The request is recorded. *)
Definition get_nodes (node_regex group : option string)
    : M (list JenkinsNode) := fun w =>
  (Ok (select_from 0 (nodes w) node_regex group),
   with_request (node_regex, group) w).

(** *** Methods of a node *)

Definition hours (h : Z) : Z := 3600 * h.

(** Modelled from the spec: [Node.reserve], which is not in [cli.py].
    Section 4.2, "On success": the reservation gets the owner given or
    else the acting identity and expires [reservation_time] hours from
    now; a node running a job keeps that status, any other becomes
    RESERVED.  The status checks of section 4.2 are those [main] makes
    before the call. *)
Definition reserve (env : Env) (n : Node) (reservation_time : Z)
    (owner : option string) (force_reserve : bool)
    : Node * ReservationInfo :=
  let who := default (jenkins_username env) owner in
  let until := now env + hours reservation_time in
  let st := if decide (status n = NodeStatus.JOB_RUNNING)
            then NodeStatus.JOB_RUNNING else NodeStatus.RESERVED in
  (set_status st
     (set_reservation
        (Some {| owner := who; created_at := now env;
                 expires_at := until |}) n),
   {| info_owner := who; info_node := name n; info_expires_at := until |}).

(** Modelled from the spec: [Node.extend_reservation], which is not in
    [cli.py].  Section 4.2: on a node that carries a reservation, a
    caller who is not the owner and does not force fails with
    [OwnershipError]; otherwise the expiry moves by [reservation_time]
    hours. *)
Definition extend_reservation (env : Env) (n : Node)
    (reservation_time : Z) (force : bool) : Result Node :=
  match reservation n with
  | Some r =>
      if bool_decide (owner r ≠ jenkins_username env) && negb force
      then Raise OwnershipError
      else Ok (set_reservation
                 (Some {| owner := owner r; created_at := created_at r;
                          expires_at :=
                            expires_at r + hours reservation_time |}) n)
  | None => extend_unreserved n reservation_time force
  end.

(** Modelled from the spec: [Node.clear_reservation], which is not in
    [cli.py].  Section 4.2: the reservation is destroyed and the node goes
    online if asked to, else to the registry's idle state; on a node with
    no active reservation it is a no-op. *)
Definition clear_reservation (n : Node) (bring_online : bool) : Node :=
  match reservation n with
  | Some _ =>
      set_status (if bring_online then NodeStatus.ONLINE else idle_status n)
        (set_reservation None n)
  | None => n
  end.

(** Modelled from the spec: [Node.set_reprovision_pending], which is not
    in [cli.py].  Section 4.2: the node is marked REPROVISION_PENDING. *)
Definition set_reprovision_pending (n : Node) : Node :=
  set_status NodeStatus.REPROVISION_PENDING n.

(** Modelled from the spec: the group methods of a node, which are not in
    [cli.py] (section 4.3). *)
Definition clear_all_groups (n : Node) : Node := set_groups ∅ n.
Definition update_with_groups (gs : list string) (n : Node) : Node :=
  set_groups (list_to_set gs) n.
Definition add_groups (gs : list string) (n : Node) : Node :=
  set_groups (groups n ∪ list_to_set gs) n.
Definition remove_groups (gs : list string) (n : Node) : Node :=
  set_groups (groups n ∖ list_to_set gs) n.

(** Modelled from the spec: [Node.update_capabilities], which is not in
    [cli.py].  Section 4.4: the patch is merged into the capabilities; its
    keys win and the others stay. *)
Definition update_capabilities (patch : gmap string string) (n : Node)
    : Node :=
  set_capabilities (patch ∪ capabilities n) n.

(** *** The command, [JenkinsNodeShell.main] *)

Definition nl : string := String (Ascii.ascii_of_nat 10) "".
Definition tab : string := String (Ascii.ascii_of_nat 9) "".

(** The parsed arguments of the actions other than [list] and [setup],
    with the options each sub-parser declares.  The [--set] option of
    [capability] is held decoded: [None] is the empty, falsy text and
    [Some patch] a text that denotes the dictionary [patch]. *)
Inductive Args :=
  | RESERVE (node_regex : option string) (group : string) (all : bool)
      (time : Z) (json : bool) (reservation_owner : option string)
      (force : bool)
  | EXTEND (node_regex : option string) (time : Z) (force : bool)
  | RELEASE (node_regex : option string) (force online pending : bool)
  | GROUP (node_regex : option string) (add : option string)
      (clear get : bool) (remove set : option string)
  | CAPABILITIES (node_regex : option string)
      (set : option (gmap string string)).

(** The message built where [len(jenkins_nodes) != 1]; [what] is
    ["reservation"] for [reserve] and ["node pattern"] elsewhere. *)
Definition found_msg (what : string) (jenkins_nodes : list JenkinsNode)
    : string :=
  let err_msg := "Found " +:+ pretty (length jenkins_nodes)
                 +:+ " nodes maching your " +:+ what in
  if decide (1 < length jenkins_nodes)%nat
  then err_msg +:+ ". Please specify only one." +:+ nl
       +:+ _get_node_table_str jenkins_nodes
  else err_msg.

(** [if len(jenkins_nodes) != 1: raise CommandError(err_msg)] followed
    by [jenkins_nodes[0]]. *)
Definition the_only (what : string) (jenkins_nodes : list JenkinsNode)
    : M JenkinsNode :=
  match jenkins_nodes with
  | [node] => ret node
  | _ => raise (CommandError (found_msg what jenkins_nodes))
  end.

Definition job_running_msg (n : Node) (group : option string) : string :=
  "Node " +:+ get_name n
  +:+ " is currently running CI job. Use --force flag "
  +:+ "to reserve the node." +:+ nl +:+ tab +:+ "After doing so, use:"
  +:+ nl +:+ tab +:+ "    $ devnest list -g " +:+ str_opt group +:+ " "
  +:+ get_name n +:+ nl +:+ tab +:+ "To check if "
  +:+ "CI job is finished and you can use it - node "
  +:+ "status will become reserved." +:+ nl +:+ tab
  +:+ "This may take even few hours!"
  +:+ nl +:+ tab
  +:+ "More details about current node usage is available at:"
  +:+ nl +:+ tab +:+ "    " +:+ get_node_url n.

Definition not_online_msg (n : Node) : string :=
  ("Node " +:+ get_name n +:+ " is not online and can not be reserved. ")
  +:+ "Node status: " +:+ get_node_status_str n
  +:+ ". Try release the node.".

Definition not_owner_msg (n : Node) (reserve_user : option string)
    : string :=
  "Node " +:+ get_name n +:+ " is reserved by " +:+ str_opt reserve_user
  +:+ " and can not " +:+ "be released unless used with --force flag.".

Definition main (env : Env) (parser_args : Args) : M unit :=
  match parser_args with
  | RESERVE node_regex group all time json reservation_owner force =>
      let reservation_time := time in
      let group := if all then None else Some group in
      do jenkins_nodes <- get_nodes node_regex group;
      do reserve_node <- the_only "reservation" jenkins_nodes;
      if bool_decide (get_node_status reserve_node.2
                      = NodeStatus.JOB_RUNNING) && negb force
      then raise (CommandError (job_running_msg reserve_node.2 group))
      else if bool_decide (get_node_status reserve_node.2
                           ≠ NodeStatus.ONLINE) && negb force
      then raise (CommandError (not_online_msg reserve_node.2))
      else
        let result := reserve env reserve_node.2 reservation_time
                        reservation_owner force in
        run push reserve_node.1 result.1;
        if json then print (json_dumps result.2) else ret tt
  | EXTEND node_regex time force =>
      do jenkins_nodes <- get_nodes node_regex None;
      do node <- the_only "node pattern" jenkins_nodes;
      match extend_reservation env node.2 time force with
      | Ok n' => push node.1 n'
      | Raise e => raise e
      end
  | RELEASE node_regex force online pending =>
      do jenkins_nodes <- get_nodes node_regex None;
      do reserve_node <- the_only "node pattern" jenkins_nodes;
      if pending
      then push reserve_node.1 (set_reprovision_pending reserve_node.2)
      else
        let reserve_user := get_reservation_owner reserve_node.2 in
        let jenkins_user := jenkins_username env in
        if bool_decide (reserve_user ≠ Some jenkins_user) && negb force
        then raise (CommandError
                      (not_owner_msg reserve_node.2 reserve_user))
        else push reserve_node.1
               (clear_reservation reserve_node.2 online)
  | GROUP node_regex add clear get remove set =>
      do jenkins_nodes <- get_nodes node_regex None;
      if get then
        let all_groups :=
          foldl (fun acc (node : JenkinsNode) =>
                   acc ++ get_node_labels node.2) [] jenkins_nodes in
        print ("Available groups: " +:+ join "," (list_set all_groups))
      else
        do node <- the_only "node pattern" jenkins_nodes;
        if clear then push node.1 (clear_all_groups node.2)
        else if truthy set then
          push node.1
            (update_with_groups (split ","%char (default "" set)) node.2)
        else if truthy add then
          push node.1 (add_groups (split ","%char (default "" add)) node.2)
        else if truthy remove then
          push node.1
            (remove_groups (split ","%char (default "" remove)) node.2)
        else ret tt
  | CAPABILITIES node_regex set =>
      do jenkins_nodes <- get_nodes node_regex None;
      match set with
      | Some patch =>
          for_each jenkins_nodes (fun node : JenkinsNode =>
            push node.1 (update_capabilities patch node.2))
      | None => ret tt
      end
  end.

(** *** Outcomes

    The values the properties below are stated with. *)

(** The rows [_get_node_table_str] hands to the renderer: the header, then
    one row for each candidate, in order, that starts with its name. *)
Definition table_rows (found : list JenkinsNode) : list (list Cell) :=
  (CStr <$> ["Host"; "State"; "RAM"; "CPU"; "Reserved by";
             "Reserved until"])
  :: ((λ jn : JenkinsNode,
         [CStr (name jn.2); CStr (status_str (status jn.2));
          CStr (physical_ram jn.2); cell_of (capabilities jn.2 !! "cpu");
          cell_of (owner <$> reservation jn.2);
          from_option CTime CNone (expires_at <$> reservation jn.2)])
        <$> found).

(** The expiry of a reservation moved by some hours. *)
Definition extended (r : ReservationState) (time : Z) : ReservationState :=
  {| owner := owner r; created_at := created_at r;
     expires_at := expires_at r + hours time |}.

(** A node given a status and a reservation for [who] that starts now
    and lasts [time] hours, and the info that goes with it. *)
Definition reserved_as (who : string) (env : Env) (time : Z)
    (st : NodeStatus.t) (n : Node) : Node :=
  set_status st
    (set_reservation
       (Some {| owner := who; created_at := now env;
                expires_at := now env + hours time |}) n).

Definition info_for (who : string) (env : Env) (time : Z) (n : Node)
    : ReservationInfo :=
  {| info_owner := who; info_node := name n;
     info_expires_at := now env + hours time |}.

(** A node after a capability patch meant for the nodes the regex
    matches. *)
(** The world with the groups of every node replaced by those [f] gives
    it, all else kept. *)
Definition regroup (f : Node -> gset string) (w : World) : World :=
  with_nodes ((fun n => set_groups (f n) n) <$> nodes w) w.

Definition patched (node_regex : option string)
    (patch : gmap string string) (n : Node) : Node :=
  if name_matches node_regex n then update_capabilities patch n else n.

End Commands.

(** ** The rest of [cli.py]: columns, renderers, [list] and [parse_args] *)

(** *** More of Python's strings

    [str.upper], [str.lower] and [in].  The case functions are those of
    ASCII text: a byte that is no ASCII letter is left as it is. *)

Definition upper_char (c : Ascii.ascii) : Ascii.ascii :=
  let k := nat_of_ascii c in
  if (97 <=? k)%nat && (k <=? 122)%nat then ascii_of_nat (k - 32) else c.

Definition lower_char (c : Ascii.ascii) : Ascii.ascii :=
  let k := nat_of_ascii c in
  if (65 <=? k)%nat && (k <=? 90)%nat then ascii_of_nat (k + 32) else c.

Fixpoint upper (s : string) : string :=
  match s with
  | EmptyString => EmptyString
  | String c s' => String (upper_char c) (upper s')
  end.

Fixpoint lower (s : string) : string :=
  match s with
  | EmptyString => EmptyString
  | String c s' => String (lower_char c) (lower s')
  end.

(** Every byte of the text is below 128. *)
Fixpoint ascii_text (s : string) : bool :=
  match s with
  | EmptyString => true
  | String c s' => (nat_of_ascii c <? 128)%nat && ascii_text s'
  end.

(** [a in b] for two strings: [a] occurs in [b]. *)
Fixpoint contains (a b : string) : bool :=
  String.prefix a b
  || match b with
     | EmptyString => false
     | String _ b' => contains a b'
     end.

(** A text free of the separator. *)
Fixpoint free_of (sep : Ascii.ascii) (s : string) : bool :=
  match s with
  | EmptyString => true
  | String c s' => negb (Ascii.eqb c sep) && free_of sep s'
  end.

(** *** Exceptions of the renderers

    Besides the exceptions of the commands, an index into a dictionary
    that lacks the key raises [KeyError]. *)
Inductive error :=
  | Cli (e : exn)
  | KeyError (key : string).

Inductive Try (A : Type) :=
  | Returns (a : A)
  | Throws (e : error).
Arguments Returns {A} a.
Arguments Throws {A} e.

Definition try_bind {A B} (m : Try A) (k : A -> Try B) : Try B :=
  match m with
  | Returns a => k a
  | Throws e => Throws e
  end.

(** A list built element by element, left to right, up to the first
    exception. *)
Fixpoint try_map {A B} (f : A -> Try B) (l : list A) : Try (list B) :=
  match l with
  | [] => Returns []
  | x :: l' =>
      try_bind (f x) (fun y =>
      try_bind (try_map f l') (fun ys => Returns (y :: ys)))
  end.

(** *** [Columns.get_columns] *)

(** The text of [Columns.DEFAULT]. *)
Definition DEFAULT_text : string := "host,state,ram,cpu,reserved,until".

(** What [get_columns] can put in its list: the number of a column, or the
    value of the class attribute [DEFAULT], which is a text. *)
Inductive ColumnValue :=
  | Col (c : Columns.t)
  | DefaultText.

(** [Columns.__dict__.get(key)] for a key that is the upper case of some
    text.  The class dictionary holds the eight columns and [DEFAULT]; its
    other keys (the three static methods and the names between double
    underscores) have lower-case letters and are the upper case of no
    text. *)
Definition Columns_dict (key : string) : option ColumnValue :=
  if String.eqb key "HOST" then Some (Col Columns.HOST)
  else if String.eqb key "STATE" then Some (Col Columns.STATE)
  else if String.eqb key "RAM" then Some (Col Columns.RAM)
  else if String.eqb key "CPU" then Some (Col Columns.CPU)
  else if String.eqb key "RESERVED" then Some (Col Columns.RESERVED)
  else if String.eqb key "UNTIL" then Some (Col Columns.UNTIL)
  else if String.eqb key "GROUPS" then Some (Col Columns.GROUPS)
  else if String.eqb key "CAPABILITIES" then Some (Col Columns.CAPABILITIES)
  else if String.eqb key "DEFAULT" then Some DefaultText
  else None.

(** The loop of [get_columns] over the pieces of the text. *)
Fixpoint get_columns_loop (pieces : list string) : Try (list ColumnValue) :=
  match pieces with
  | [] => Returns []
  | column :: pieces' =>
      match Columns_dict (upper column) with
      | Some v =>
          try_bind (get_columns_loop pieces') (fun columns =>
          Returns (v :: columns))
      | None => Throws (Cli (CommandError ("Unknown column: " +:+ column)))
      end
  end.

(** [Columns.get_columns(columns_string)]. *)
Definition get_columns (columns_string : string) : Try (list ColumnValue) :=
  get_columns_loop (split ","%char columns_string).

(** [Columns.to_str(column)] for whatever [get_columns] returned: the
    dictionary of titles is indexed with it. *)
Definition to_str_value (column : ColumnValue) : Try string :=
  match column with
  | Col c => Returns (Columns.to_str c)
  | DefaultText => Throws (KeyError DEFAULT_text)
  end.

(** What [cli.py] uses to turn values into text and that it does not
    define: [str] of an expiry and of a capability dictionary, and
    [json.dumps] of the [to_dict()] of the nodes listed. *)
Class Rendering := {
  str_time : Z -> string;
  str_dict : gmap string string -> string;
  json_dumps_nodes : list Node -> string
}.

(** What [parse_args] reads of the machine: the home directory and which
    paths are readable files ([os.path.isfile(path) and
    os.access(path, os.R_OK)]). *)
Class Filesystem := {
  home : string;
  readable_file : string -> bool
}.

Section Listing.
Context {C : Collaborators} {R : Rendering} {F : Filesystem}.

(** [str(x)] for a value of a cell. *)
Definition py_str (x : Cell) : string :=
  match x with
  | CStr s => s
  | CNone => "None"
  | CTime t => str_time t
  | CDict d => str_dict d
  end.

(** [Columns.to_data(node, column)] for whatever [get_columns] returned:
    the dictionary of the eight values is built, then indexed. *)
Definition to_data_value (node : Node) (column : ColumnValue) : Try Cell :=
  match column with
  | Col c => Returns (to_data node c)
  | DefaultText => Throws (KeyError DEFAULT_text)
  end.

(** [_get_node_table_str(jenkins_nodes, columns)] with both arguments. *)
Definition get_node_table_str (jenkins_nodes : list JenkinsNode)
    (columns : string) : Try string :=
  try_bind (get_columns columns) (fun columns_list =>
  try_bind (try_map to_str_value columns_list) (fun titles =>
  let table_data := [CStr <$> titles] in
  try_bind
    (try_map (fun jenkins_node : JenkinsNode =>
                try_map (to_data_value jenkins_node.2) columns_list)
       jenkins_nodes) (fun node_list =>
  Returns (AsciiTable (table_data ++ node_list))))).

(** The loop of [_get_node_parseable_str]; [total] is
    [len(jenkins_nodes)]. *)
Fixpoint parseable_loop (total : nat) (columns_list : list ColumnValue)
    (rest : list JenkinsNode) (node_str : string) (count : nat)
    : Try string :=
  match rest with
  | [] => Returns node_str
  | jenkins_node :: rest' =>
      try_bind (try_map (to_data_value jenkins_node.2) columns_list)
        (fun cells =>
      let node_str := node_str +:+ join ";" (py_str <$> cells) in
      let node_str :=
        if decide (count < total)%nat then node_str +:+ nl else node_str in
      parseable_loop total columns_list rest' node_str (count + 1))
  end.

(** [_get_node_parseable_str(jenkins_nodes, columns)]. *)
Definition _get_node_parseable_str (jenkins_nodes : list JenkinsNode)
    (columns : string) : Try string :=
  let node_str := "" in
  let count := 1%nat in
  try_bind (get_columns columns) (fun columns_list =>
  parseable_loop (length jenkins_nodes) columns_list jenkins_nodes
    node_str count).

Definition LIST_FORMATS : list string := ["csv"; "table"].

(** The block of [main] for [Action.LIST], with the options of the [list]
    sub-parser.  It raises and prints like the commands do, with the
    exceptions of the renderers added. *)
Definition main_list (node_regex : option string) (group : string)
    (all : bool) (format : option string) (column : string)
    (state : option string) : World -> Try unit * World := fun w =>
  let group := if all then None else Some group in
  match get_nodes node_regex group w with
  | (Raise e, w1) => (Throws (Cli e), w1)
  | (Ok jenkins_nodes, w1) =>
      let jenkins_nodes :=
        if truthy state
        then List.filter
               (fun node : JenkinsNode =>
                  contains (lower (default "" state))
                    (get_node_status_str node.2))
               jenkins_nodes
        else jenkins_nodes in
      let printing (text : Try string) : Try unit * World :=
        match text with
        | Returns s => (Returns tt, with_line s w1)
        | Throws e => (Throws e, w1)
        end in
      if bool_decide (format = None) || bool_decide (format = Some "table")
      then printing (get_node_table_str jenkins_nodes column)
      else if bool_decide (format = Some "json")
      then printing (Returns (json_dumps_nodes (snd <$> jenkins_nodes)))
      else if bool_decide (default "" format ∈ LIST_FORMATS)
      then printing (_get_node_parseable_str jenkins_nodes column)
      else
        let err_msg := "List format '" +:+ default "" format
                       +:+ "' is not supported." in
        (Throws (Cli (CommandError err_msg)), w1)
  end.

(** *** [parse_args] after [argparse] *)

Inductive LogLevel := DEBUG | ERROR.

(** The options of the base parser that [parse_args] looks at.
    [parseable] is [None] when the namespace has no such attribute. *)
Record Namespace := {
  conf : option string;
  url : option string;
  user : option string;
  password : option string;
  verbose : bool;
  parseable : option bool
}.

Definition set_conf (c : option string) (args : Namespace) : Namespace :=
  {| conf := c; url := url args; user := user args;
     password := password args; verbose := verbose args;
     parseable := parseable args |}.

Definition DEFAULT_CONFIG : list string :=
  [home +:+ "/.config/jenkins_jobs/jenkins_jobs.ini";
   "/etc/jenkins_jobs/jenkins_jobs.ini"].

(** The loop of [_get_default_config]: the first path that is a readable
    file ends it. *)
Fixpoint first_readable (paths : list string) : option string :=
  match paths with
  | [] => None
  | path :: paths' =>
      if readable_file path then Some path else first_readable paths'
  end.

Definition _get_default_config : option string :=
  first_readable DEFAULT_CONFIG.

(** [parse_args] from the parsed namespace on: the level the logger is
    last set to, if it is set, and the namespace returned or the error
    raised. *)
Definition parse_args (args : Namespace)
    : Result Namespace * option LogLevel :=
  let parseable_output := bool_decide (parseable args = Some true) in
  let level := if verbose args && negb parseable_output
               then Some DEBUG else None in
  let level := if parseable_output then Some ERROR else level in
  (if negb (truthy (conf args))
      && negb (truthy (user args) && truthy (password args)
               && truthy (url args))
   then if truthy _get_default_config
        then Ok (set_conf _get_default_config args)
        else Raise (CommandError
                      ("You must provide either username, password"
                       +:+ " and url or path to configuration file"
                       +:+ " via --conf option."))
   else Ok args,
   level).

(** The credentials of the command line are complete when user, password
    and URL are all given and none is empty. *)
Definition credentials (args : Namespace) : bool :=
  truthy (user args) && truthy (password args) && truthy (url args).

(** The [node_regex] option of the parsed arguments. *)
Definition regex_of (parser_args : Args) : option string :=
  match parser_args with
  | RESERVE node_regex _ _ _ _ _ _ => node_regex
  | EXTEND node_regex _ _ => node_regex
  | RELEASE node_regex _ _ _ => node_regex
  | GROUP node_regex _ _ _ _ _ => node_regex
  | CAPABILITIES node_regex _ => node_regex
  end.

End Listing.

(** ** A concrete setting

    Stand-ins for the collaborators and a small registry, used to run the
    commands on concrete inputs. *)

(** A pattern matches the names it is a prefix of; a table is the text of
    its first column, the header apart; a status prints as a fixed word. *)
Definition demo : Collaborators := {|
  re_search pattern s := String.prefix pattern s;
  AsciiTable table_data :=
    join "," ((fun row => match row with
                          | CStr s :: _ => s
                          | _ => "?"
                          end) <$> tail table_data);
  json_dumps info := info_owner info +:+ "@" +:+ info_node info;
  status_str s :=
    match s with
    | NodeStatus.ONLINE => "online"
    | NodeStatus.OFFLINE => "offline"
    | NodeStatus.JOB_RUNNING => "job_running"
    | NodeStatus.RESERVED => "reserved"
    | NodeStatus.REPROVISION_PENDING => "reprovision_pending"
    | NodeStatus.UNKNOWN => "unknown"
    end;
  idle_status _ := NodeStatus.OFFLINE;
  extend_unreserved n _ _ := Ok n
|}.

Definition mk_node (nm : string) (st : NodeStatus.t) (gs : list string)
    (caps : list (string * string)) (r : option ReservationState) : Node :=
  {| name := nm; status := st; node_url := "http://jenkins/" +:+ nm;
     physical_ram := "64G"; groups := list_to_set gs;
     capabilities := list_to_map caps; reservation := r |}.

Definition by_bob : ReservationState :=
  {| owner := "bob"; created_at := 0; expires_at := 7200 |}.

Definition lab01 : Node :=
  mk_node "lab-01" NodeStatus.ONLINE ["shared"]
    [("cpu", "arm"); ("ram", "64")] None.
Definition lab02 : Node :=
  mk_node "lab-02" NodeStatus.RESERVED ["other"; "shared"] [("ram", "32")]
    (Some by_bob).
Definition dev01 : Node :=
  mk_node "dev-01" NodeStatus.JOB_RUNNING ["other"] [] None.

Definition world0 : World :=
  {| nodes := [lab01; lab02; dev01]; stdout := []; requests := [] |}.

(** The node of the first scenario of the specification. *)
Definition nodeN : Node := mk_node "N" NodeStatus.ONLINE ["shared"] [] None.

Definition worldN : World :=
  {| nodes := [nodeN]; stdout := []; requests := [] |}.

Definition alice : Env := {| now := 1000; jenkins_username := "alice" |}.
Definition bob : Env := {| now := 1000; jenkins_username := "bob" |}.

(** Stand-ins for the renderers and the machine: times print as their
    decimal digits, dictionaries as the number of their keys, a list of
    nodes in JSON as the names, and only the system-wide configuration is
    readable. *)
Definition demo_rendering : Rendering := {|
  str_time t := pretty t;
  str_dict d := pretty (size d);
  json_dumps_nodes l := join "," (name <$> l)
|}.

Definition demo_fs : Filesystem := {|
  home := "/home/alice";
  readable_file path := String.eqb path "/etc/jenkins_jobs/jenkins_jobs.ini"
|}.

Definition no_options : Namespace :=
  {| conf := None; url := None; user := Some "alice"; password := None;
     verbose := false; parseable := None |}.

(** ** Properties *)

Section Properties.
Context {C : Collaborators}.
Implicit Types (w : World) (env : Env) (n : Node) (i : nat).
Implicit Types (node_regex group : option string).
Implicit Types (reg : list Node) (found : list JenkinsNode).

(** *** Selection *)

Lemma select_from_elem_of k reg node_regex group i n :
  (i, n) ∈ select_from k reg node_regex group ↔
  ∃ j, i = (k + j)%nat ∧ reg !! j = Some n ∧
       name_matches node_regex n = true ∧ in_nest group n = true.
Proof.
  revert k. induction reg as [|m reg IH]; intros k; simpl.
  - split; [by intros ?%elem_of_nil | by intros (j & _ & ? & _)].
  - destruct (name_matches node_regex m && in_nest group m) eqn:Hm.
    + apply andb_true_iff in Hm as [Hrx Hg].
      rewrite elem_of_cons, IH. split.
      * intros [[= -> ->] | (j & -> & Hj & ?)].
        -- exists 0%nat. by rewrite Nat.add_0_r.
        -- exists (S j). split; [lia | done].
      * intros ([|j] & -> & Hj & Hrx' & Hg'); simpl in Hj.
        -- left. injection Hj as ->. by rewrite Nat.add_0_r.
        -- right. exists j. split; [lia | done].
    + rewrite IH. split.
      * intros (j & -> & Hj & ?). exists (S j). split; [lia | done].
      * intros ([|j] & -> & Hj & Hrx' & Hg'); simpl in Hj.
        -- injection Hj as ->. rewrite Hrx', Hg' in Hm. done.
        -- exists j. split; [lia | done].
Qed.

(** A selected node object sits in the registry at its position. *)
Lemma select_from_lookup reg node_regex group i n :
  (i, n) ∈ select_from 0 reg node_regex group → reg !! i = Some n.
Proof.
  rewrite select_from_elem_of. by intros (j & -> & Hj & _).
Qed.

Lemma select_single_lookup reg node_regex group i n :
  select_from 0 reg node_regex group = [(i, n)] → reg !! i = Some n.
Proof.
  intros Hsel. apply (select_from_lookup reg node_regex group).
  rewrite Hsel. apply list_elem_of_here.
Qed.

(** Changing the groups of the nodes changes nothing in a selection over
    all nests but the groups of the nodes selected. *)
Lemma select_from_regroup (f : Node → gset string) k reg node_regex :
  select_from k ((λ n, set_groups (f n) n) <$> reg) node_regex None =
  (λ jn : JenkinsNode, (jn.1, set_groups (f jn.2) jn.2))
    <$> select_from k reg node_regex None.
Proof.
  revert k. induction reg as [|m reg IH]; intros k; [done|].
  cbn [fmap list_fmap select_from].
  assert (name_matches node_regex (set_groups (f m) m)
          = name_matches node_regex m) as -> by by destruct node_regex.
  cbn [in_nest]. rewrite !andb_true_r.
  destruct (name_matches node_regex m); cbn [fmap list_fmap];
    by rewrite <- IH.
Qed.

(** *** The single-candidate check *)

(** Runs [main] through its [get_nodes] request, given what is selected. *)
Ltac enter_main Hsel :=
  unfold main, bind, get_nodes; rewrite Hsel;
  cbn [the_only ret raise fst snd].

Example split_groups : split ","%char "a,b,,c" = ["a"; "b"; ""; "c"].
Proof. reflexivity. Qed.

Example select_shared :
  fst <$> select_from (C := demo) 0 (nodes world0) (Some "lab")
            (Some "shared") = [0%nat; 1%nat]
  ∧ fst <$> select_from (C := demo) 0 (nodes world0) None (Some "other")
    = [1%nat; 2%nat].
Proof. split; reflexivity. Qed.

Lemma the_only_fails what found w :
  length found ≠ 1%nat →
  the_only what found w = (Raise (CommandError (found_msg what found)), w).
Proof. by destruct found as [|? [|? ?]]. Qed.

Lemma append_empty_r (s : string) : s +:+ "" = s.
Proof.
  induction s as [|c s IH]; [done|].
  change (String c (s +:+ "") = String c s). by rewrite IH.
Qed.

Lemma found_msg_shape what found :
  found_msg what found =
  ("Found " +:+ pretty (length found) +:+ " nodes maching your " +:+ what)
  +:+ (if decide (1 < length found)%nat
       then ". Please specify only one." +:+ nl
            +:+ AsciiTable (table_rows found)
       else "").
Proof.
  unfold found_msg. case_decide; [done|]. by rewrite append_empty_r.
Qed.

(** Claim C3.  When the selection does not hold exactly one node, reserve,
    extend, release and the group operations other than get raise the
    [CommandError] of the single-candidate check.  Its message names the
    number of nodes found and, when there are several, ends with the
    table of the candidates.  The check comes before any use of [force],
    and the nodes and the output stay as they were. *)
Theorem arity_check env node_regex w
    (group : string) (all json force online pending clear : bool)
    (time : Z) (reservation_owner add remove set : option string) :
  let g := if all then None else Some group in
  let found_in_nest := select_from 0 (nodes w) node_regex g in
  let found := select_from 0 (nodes w) node_regex None in
  (length found_in_nest ≠ 1%nat →
   main env (RESERVE node_regex group all time json reservation_owner
               force) w
   = (Raise (CommandError (found_msg "reservation" found_in_nest)),
      with_request (node_regex, g) w))
  ∧ (length found ≠ 1%nat →
     main env (EXTEND node_regex time force) w
     = (Raise (CommandError (found_msg "node pattern" found)),
        with_request (node_regex, None) w)
     ∧ main env (RELEASE node_regex force online pending) w
       = (Raise (CommandError (found_msg "node pattern" found)),
          with_request (node_regex, None) w)
     ∧ main env (GROUP node_regex add clear false remove set) w
       = (Raise (CommandError (found_msg "node pattern" found)),
          with_request (node_regex, None) w))
  ∧ (∀ what l,
       found_msg what l =
       ("Found " +:+ pretty (length l) +:+ " nodes maching your " +:+ what)
       +:+ (if decide (1 < length l)%nat
            then ". Please specify only one." +:+ nl
                 +:+ AsciiTable (table_rows l)
            else "")).
Proof.
  intros g found_in_nest found. split; [|split].
  - intros Hlen. unfold main, bind, get_nodes. fold g found_in_nest.
    by rewrite the_only_fails.
  - intros Hlen. unfold main, bind, get_nodes. fold found.
    by rewrite the_only_fails.
  - apply found_msg_shape.
Qed.

(** Claim C10.  A capability set whose selector matches no node ends
    normally: nothing is raised and neither the nodes nor the output
    change. *)
Theorem capability_set_no_match env node_regex set w :
  select_from 0 (nodes w) node_regex None = [] →
  main env (CAPABILITIES node_regex set) w
  = (Ok tt, with_request (node_regex, None) w).
Proof.
  intros Hsel. unfold main, bind, get_nodes. rewrite Hsel.
  by destruct set.
Qed.

(** Claim C6.  A release with [pending] on a single candidate marks the
    node REPROVISION_PENDING whoever the caller is and whatever [force]
    and [online] are: nothing is raised, the owner is not looked at, and
    the reservation is not cleared. *)
Theorem release_pending env node_regex force online w i n :
  select_from 0 (nodes w) node_regex None = [(i, n)] →
  main env (RELEASE node_regex force online true) w
  = (Ok tt,
     with_nodes (<[i := set_reprovision_pending n]> (nodes w))
       (with_request (node_regex, None) w))
  ∧ <[i := set_reprovision_pending n]> (nodes w) !! i
    = Some (set_reprovision_pending n)
  ∧ status (set_reprovision_pending n) = NodeStatus.REPROVISION_PENDING
  ∧ reservation (set_reprovision_pending n) = reservation n.
Proof.
  intros Hsel. split; [|split; [|done]].
  - by enter_main Hsel.
  - apply list_lookup_insert_eq.
    apply select_single_lookup in Hsel. by eapply lookup_lt_Some.
Qed.

(** *** Ownership *)

(** Claim C1, amended.  On a single candidate that carries a reservation,
    extend without [force], and release without [force] and without
    [pending], raise the ownership error exactly when the owner of the
    reservation is not, character for character, the acting identity;
    when the two are equal they succeed. *)
Theorem owner_check env node_regex time online w i n r :
  select_from 0 (nodes w) node_regex None = [(i, n)] →
  reservation n = Some r →
  let w' := with_request (node_regex, None) w in
  (owner r = jenkins_username env →
     main env (EXTEND node_regex time false) w
     = (Ok tt,
        with_nodes
          (<[i := set_reservation (Some (extended r time)) n]> (nodes w))
          w')
     ∧ main env (RELEASE node_regex false online false) w
       = (Ok tt,
          with_nodes (<[i := clear_reservation n online]> (nodes w)) w'))
  ∧ (owner r ≠ jenkins_username env →
     main env (EXTEND node_regex time false) w = (Raise OwnershipError, w')
     ∧ main env (RELEASE node_regex false online false) w
       = (Raise (CommandError (not_owner_msg n (Some (owner r)))), w')).
Proof.
  intros Hsel Hr w'. enter_main Hsel.
  unfold extend_reservation, get_reservation_owner. rewrite Hr.
  cbn [fmap option_fmap option_map].
  split; intros Hown.
  - rewrite !bool_decide_eq_false_2 by (intros Hne; apply Hne; congruence).
    done.
  - rewrite !bool_decide_eq_true_2 by congruence. done.
Qed.

(** Claim C4, on the code.  On a single candidate that carries no
    reservation, release without [pending] is a no-op that raises nothing
    only when [force] is given: the nodes and the output are what they
    were, and so are the groups and capabilities of the node.  Without
    [force] line 469 compares the absent owner with the acting identity,
    finds them different, and the [CommandError] of line 473 is raised,
    telling that the node is reserved by [None]. *)
Theorem release_unreserved env node_regex force online w i n :
  select_from 0 (nodes w) node_regex None = [(i, n)] →
  reservation n = None →
  let w' := with_request (node_regex, None) w in
  main env (RELEASE node_regex force online false) w
  = (if force
     then (Ok tt, w')
     else (Raise (CommandError (not_owner_msg n None)), w'))
  ∧ nodes w' = nodes w
  ∧ stdout w' = stdout w
  ∧ clear_reservation n online = n
  ∧ reservation (clear_reservation n online) = None
  ∧ groups (clear_reservation n online) = groups n
  ∧ capabilities (clear_reservation n online) = capabilities n.
Proof.
  intros Hsel Hr w'.
  assert (clear_reservation n online = n) as Hclear
    by (unfold clear_reservation; by rewrite Hr).
  split; [|by rewrite Hclear].
  enter_main Hsel. unfold get_reservation_owner. rewrite Hr.
  cbn [fmap option_fmap option_map].
  rewrite bool_decide_eq_true_2 by done. destruct force; [|done].
  cbn [andb negb]. unfold push. cbn [fst snd]. rewrite Hclear.
  rewrite list_insert_id by by eapply select_single_lookup.
  by destruct w.
Qed.

(** *** Reserve *)

(** Claim C2.  On a single candidate that is running a job, reserve
    without [force] raises the job-running [CommandError] and leaves the
    nodes and the output as they were; reserve with [force] raises
    nothing and records the reservation on the node, which keeps its
    status. *)
Theorem reserve_job_running env node_regex (group : string)
    (all json : bool) (time : Z) reservation_owner w i n :
  let g := if all then None else Some group in
  let who := default (jenkins_username env) reservation_owner in
  select_from 0 (nodes w) node_regex g = [(i, n)] →
  status n = NodeStatus.JOB_RUNNING →
  main env (RESERVE node_regex group all time json reservation_owner
              false) w
  = (Raise (CommandError (job_running_msg n g)),
     with_request (node_regex, g) w)
  ∧ main env (RESERVE node_regex group all time json reservation_owner
                true) w
    = (Ok tt,
       let w' :=
         with_nodes
           (<[i := reserved_as who env time NodeStatus.JOB_RUNNING n]>
              (nodes w))
           (with_request (node_regex, g) w) in
       if json then with_line (json_dumps (info_for who env time n)) w'
       else w')
  ∧ <[i := reserved_as who env time NodeStatus.JOB_RUNNING n]> (nodes w)
      !! i
    = Some (reserved_as who env time NodeStatus.JOB_RUNNING n)
  ∧ reservation (reserved_as who env time NodeStatus.JOB_RUNNING n)
    = Some {| owner := who; created_at := now env;
              expires_at := now env + hours time |}.
Proof.
  intros g who Hsel Hst. subst g. split; [|split; [|split; [|done]]].
  - enter_main Hsel. unfold get_node_status.
    by rewrite bool_decide_eq_true_2.
  - enter_main Hsel. cbn [negb]. rewrite !andb_false_r.
    unfold reserve, push, reserved_as, info_for. fold who.
    cbn [fst snd]. rewrite decide_True by done. by destruct json.
  - apply list_lookup_insert_eq.
    apply select_single_lookup in Hsel. by eapply lookup_lt_Some.
Qed.

(** Claim C5.  On a single candidate that is ONLINE and carries no
    reservation, reserve for a named owner without [force] succeeds: the
    info it produces holds that owner, the name of the node and the
    expiry, now plus the hours asked for, and the node is RESERVED with
    that reservation.  The scenario of the specification is node ["N"],
    3 hours and owner ["alice"]. *)
Theorem reserve_online env node_regex (group : string) (all json : bool)
    (time : Z) (who : string) w i n :
  let g := if all then None else Some group in
  select_from 0 (nodes w) node_regex g = [(i, n)] →
  status n = NodeStatus.ONLINE →
  reservation n = None →
  reserve env n time (Some who) false
  = (reserved_as who env time NodeStatus.RESERVED n,
     {| info_owner := who; info_node := name n;
        info_expires_at := now env + 3600 * time |})
  ∧ main env (RESERVE node_regex group all time json (Some who) false) w
    = (Ok tt,
       let w' :=
         with_nodes
           (<[i := reserved_as who env time NodeStatus.RESERVED n]>
              (nodes w))
           (with_request (node_regex, g) w) in
       if json then with_line (json_dumps (info_for who env time n)) w'
       else w')
  ∧ <[i := reserved_as who env time NodeStatus.RESERVED n]> (nodes w) !! i
    = Some (reserved_as who env time NodeStatus.RESERVED n)
  ∧ status (reserved_as who env time NodeStatus.RESERVED n)
    = NodeStatus.RESERVED
  ∧ reservation (reserved_as who env time NodeStatus.RESERVED n)
    = Some {| owner := who; created_at := now env;
              expires_at := now env + 3600 * time |}.
Proof.
  intros g Hsel Hst Hr.
  assert (reserve env n time (Some who) false
          = (reserved_as who env time NodeStatus.RESERVED n,
             info_for who env time n)) as Hres.
  { unfold reserve, reserved_as, info_for. cbn [default].
    rewrite decide_False; [done|]. by rewrite Hst. }
  split; [done|]. split; [|split; [|done]].
  - subst g. enter_main Hsel. cbn [negb]. unfold get_node_status.
    rewrite bool_decide_eq_false_2 by by rewrite Hst.
    rewrite bool_decide_eq_false_2 by (intros Hne; by apply Hne).
    cbn [andb]. rewrite Hres. unfold push. cbn [fst snd].
    by destruct json.
  - apply list_lookup_insert_eq.
    apply select_single_lookup in Hsel. by eapply lookup_lt_Some.
Qed.

(** *** Groups *)

Lemma elem_of_get_node_labels g n : g ∈ get_node_labels n ↔ g ∈ groups n.
Proof.
  unfold get_node_labels.
  by rewrite merge_sort_Permutation, elem_of_elements.
Qed.

Lemma elem_of_all_groups g (acc : list string) found :
  g ∈ foldl (λ acc (node : JenkinsNode), acc ++ get_node_labels node.2)
        acc found
  ↔ g ∈ acc ∨ ∃ jn, jn ∈ found ∧ g ∈ groups jn.2.
Proof.
  revert acc. induction found as [|jn found IH]; intros acc; simpl.
  - split; [by left | intros [? | (? & ?%elem_of_nil & _)]; done].
  - rewrite IH, elem_of_app, elem_of_get_node_labels. split.
    + intros [[? | ?] | (jn' & ? & ?)].
      * by left.
      * right. exists jn. split; [apply list_elem_of_here | done].
      * right. exists jn'. split; [by apply list_elem_of_further | done].
    + intros [? | (jn' & [-> | ?]%elem_of_cons & ?)].
      * by left; left.
      * by left; right.
      * right. by exists jn'.
Qed.

(** Claim C7.  Group get prints the groups of the matched nodes as a
    set: the aggregate holds a group exactly when one of the matched
    nodes has it, and holds it once.  When nothing is matched the
    aggregate is empty and nothing is raised.  The nodes stay as they
    were. *)
Theorem group_get env node_regex (add remove set : option string)
    (clear : bool) w :
  let found := select_from 0 (nodes w) node_regex None in
  ∃ aggregate : list string,
    main env (GROUP node_regex add clear true remove set) w
    = (Ok tt,
       with_line ("Available groups: " +:+ join "," aggregate)
         (with_request (node_regex, None) w))
    ∧ NoDup aggregate
    ∧ (∀ g, g ∈ aggregate ↔ ∃ jn, jn ∈ found ∧ g ∈ groups jn.2)
    ∧ (found = [] → aggregate = []).
Proof.
  intros found.
  exists (list_set
            (foldl (λ acc (node : JenkinsNode),
                      acc ++ get_node_labels node.2) [] found)).
  split; [done|]. split; [unfold list_set; apply NoDup_elements|]. split.
  - intros g. unfold list_set.
    rewrite elem_of_elements, elem_of_list_to_set, elem_of_all_groups.
    split; [intros [?%elem_of_nil | ?]; done | by right].
  - intros ->. unfold list_set. cbn [foldl].
    by rewrite list_to_set_nil, elements_empty.
Qed.

(** *** Capabilities *)

Lemma with_nodes_idemp l l' w :
  with_nodes l (with_nodes l' w) = with_nodes l w.
Proof. done. Qed.

Lemma for_each_update_capabilities node_regex patch pre reg w :
  nodes w = pre ++ reg →
  for_each (select_from (length pre) reg node_regex None)
    (λ node : JenkinsNode,
       push node.1 (update_capabilities patch node.2)) w
  = (Ok tt, with_nodes (pre ++ (patched node_regex patch <$> reg)) w).
Proof.
  revert pre w. induction reg as [|n reg IH]; intros pre w Hw.
  - cbn. rewrite <- Hw. by destruct w.
  - cbn [select_from in_nest fmap list_fmap]. rewrite andb_true_r.
    unfold patched at 1.
    destruct (name_matches node_regex n) eqn:Hn.
    + cbn [for_each]. unfold bind, push at 1. cbn [fst snd].
      rewrite Hw.
      replace (length pre) with (length pre + 0)%nat at 2 by lia.
      rewrite insert_app_r. cbn [insert list_insert].
      specialize (IH (pre ++ [update_capabilities patch n])
                    (with_nodes
                       (pre ++ update_capabilities patch n :: reg) w)).
      rewrite length_app, Nat.add_1_r in IH. rewrite IH.
      * by rewrite with_nodes_idemp, <- app_assoc.
      * cbn. by rewrite <- app_assoc.
    + specialize (IH (pre ++ [n]) w).
      rewrite length_app, Nat.add_1_r in IH. rewrite IH.
      * by rewrite <- app_assoc.
      * by rewrite Hw, <- app_assoc.
Qed.

(** Claim C8.  Capability set applies the one patch to each matched node
    and to no other: on a matched node a key of the patch gets the value
    of the patch, every other key keeps its value, and name, status,
    groups and reservation are untouched. *)
Theorem capability_set env node_regex (patch : gmap string string) w :
  main env (CAPABILITIES node_regex (Some patch)) w
  = (Ok tt,
     with_nodes (patched node_regex patch <$> nodes w)
       (with_request (node_regex, None) w))
  ∧ (∀ n, patched node_regex patch n
          = if name_matches node_regex n
            then update_capabilities patch n else n)
  ∧ (∀ n k,
       capabilities (update_capabilities patch n) !! k
       = match patch !! k with
         | Some v => Some v
         | None => capabilities n !! k
         end)
  ∧ (∀ n, name (update_capabilities patch n) = name n
          ∧ status (update_capabilities patch n) = status n
          ∧ groups (update_capabilities patch n) = groups n
          ∧ reservation (update_capabilities patch n) = reservation n).
Proof.
  split; [|split; [done|split; [|done]]].
  - unfold main, bind, get_nodes.
    by rewrite (for_each_update_capabilities node_regex patch []).
  - intros n k. cbn. rewrite lookup_union.
    destruct (patch !! k), (capabilities n !! k); done.
Qed.

(** *** Selection over all nests *)

Lemma for_each_push_requests (f : Node → Node) found w :
  requests (for_each found
              (λ node : JenkinsNode, push node.1 (f node.2)) w).2
  = requests w.
Proof.
  revert w. induction found as [|jn found IH]; intros w; [done|].
  cbn [for_each]. unfold bind, push at 1. by rewrite IH.
Qed.

(** The candidates of a regrouped registry, given those of the registry. *)
Lemma found_msg_regroup (f : Node → gset string) what found :
  found_msg what
    ((λ jn : JenkinsNode, (jn.1, set_groups (f jn.2) jn.2)) <$> found)
  = found_msg what found.
Proof.
  unfold found_msg, _get_node_table_str. rewrite length_fmap.
  assert ((λ jenkins_node : JenkinsNode,
             to_data jenkins_node.2 <$> Columns.DEFAULT)
            <$> ((λ jn : JenkinsNode, (jn.1, set_groups (f jn.2) jn.2))
                   <$> found)
          = (λ jenkins_node : JenkinsNode,
               to_data jenkins_node.2 <$> Columns.DEFAULT) <$> found)
    as ->; [|done].
  induction found as [|jn found IH]; [done|].
  cbn [fmap list_fmap] in *. by rewrite IH.
Qed.

Lemma the_only_regroup (f : Node → gset string) what found w :
  the_only what
    ((λ jn : JenkinsNode, (jn.1, set_groups (f jn.2) jn.2)) <$> found) w
  = match found with
    | [(i, n)] => (Ok (i, set_groups (f n) n), w)
    | _ => (Raise (CommandError (found_msg what found)), w)
    end.
Proof.
  destruct found as [|[i n] [|jn found]]; [done | done |].
  by rewrite <- (found_msg_regroup f).
Qed.

Lemma select_regroup (f : Node → gset string) w node_regex :
  select_from 0 (nodes (regroup f w)) node_regex None
  = (λ jn : JenkinsNode, (jn.1, set_groups (f jn.2) jn.2))
      <$> select_from 0 (nodes w) node_regex None.
Proof. apply select_from_regroup. Qed.

Ltac enter_regrouped :=
  unfold main, bind, get_nodes; rewrite select_regroup;
  cbn [fst snd]; try rewrite the_only_regroup.

Lemma regroup_outcome env node_regex w (time : Z)
    (force online pending clear get : bool)
    (add remove set : option string)
    (patch : option (gmap string string)) (f : Node → gset string) :
  (main env (RELEASE node_regex force online pending) (regroup f w)).1
  = (main env (RELEASE node_regex force online pending) w).1
  ∧ (main env (GROUP node_regex add clear get remove set) (regroup f w)).1
    = (main env (GROUP node_regex add clear get remove set) w).1
  ∧ (main env (CAPABILITIES node_regex patch) (regroup f w)).1
    = (main env (CAPABILITIES node_regex patch) w).1
  ∧ ((∀ i n, select_from 0 (nodes w) node_regex None = [(i, n)] →
             is_Some (reservation n)) →
     (main env (EXTEND node_regex time force) (regroup f w)).1
     = (main env (EXTEND node_regex time force) w).1).
Proof.
  split; [|split; [|split]].
  - enter_regrouped.
    destruct (select_from 0 (nodes w) node_regex None) as [|[i n] [|? ?]];
      try done.
    cbn [the_only ret raise fst snd]. destruct pending; [done|].
    change (get_reservation_owner (set_groups (f n) n))
      with (get_reservation_owner n).
    by destruct (bool_decide _ && negb force).
  - unfold main, bind, get_nodes. rewrite select_regroup. cbn [fst snd].
    destruct get; [done|]. rewrite the_only_regroup.
    destruct (select_from 0 (nodes w) node_regex None) as [|[i n] [|? ?]];
      try done.
    cbn [the_only ret raise fst snd]. destruct clear; [done|].
    destruct (truthy set); [done|]. destruct (truthy add); [done|].
    by destruct (truthy remove).
  - unfold main, bind, get_nodes. cbn [fst snd].
    destruct patch as [p|]; [|done].
    by rewrite !(for_each_update_capabilities node_regex p []).
  - intros Hreserved. enter_regrouped.
    destruct (select_from 0 (nodes w) node_regex None) as [|[i n] [|? ?]];
      try done.
    cbn [the_only ret raise fst snd].
    destruct (Hreserved i n eq_refl) as [r Hr].
    unfold extend_reservation.
    change (reservation (set_groups (f n) n)) with (reservation n).
    rewrite Hr. by destruct (bool_decide _ && negb force).
Qed.

(** Claim C9.  Extend, release, group and capability each ask
    [get_nodes] once, for their regex with no group, and act on what that
    request selects: the nodes of the registry whose name the regex
    matches, in order.  Give the nodes other groups, whatever they are,
    and each command still checks the same candidates, raises the same
    error of the single-candidate check or of ownership, and calls its
    method on the node at the same position; the groups reach the outcome
    only through the node handed to the method and through what group get
    prints. *)
Theorem selection_over_all_nests env node_regex w (time : Z)
    (force online pending clear get : bool)
    (add remove set : option string)
    (patch : option (gmap string string)) :
  let found := select_from 0 (nodes w) node_regex None in
  (requests (main env (EXTEND node_regex time force) w).2
   = requests w ++ [(node_regex, None)]
   ∧ requests (main env (RELEASE node_regex force online pending) w).2
     = requests w ++ [(node_regex, None)]
   ∧ requests (main env (GROUP node_regex add clear get remove set) w).2
     = requests w ++ [(node_regex, None)]
   ∧ requests (main env (CAPABILITIES node_regex patch) w).2
     = requests w ++ [(node_regex, None)])
  ∧ (∀ reg i n,
       (i, n) ∈ select_from 0 reg node_regex None
       ↔ reg !! i = Some n ∧ name_matches node_regex n = true)
  ∧ (∀ reg (f : Node → gset string),
       select_from 0 ((λ n, set_groups (f n) n) <$> reg) node_regex None
       = (λ jn : JenkinsNode, (jn.1, set_groups (f jn.2) jn.2))
           <$> select_from 0 reg node_regex None)
  ∧ (∀ f : Node → gset string,
       let wf := regroup f w in
       let qf := with_request (node_regex, None) wf in
       let too_many : Result unit * World :=
         (Raise (CommandError (found_msg "node pattern" found)), qf) in
       main env (EXTEND node_regex time force) wf
       = match found with
         | [(i, n)] =>
             match extend_reservation env (set_groups (f n) n) time force
             with
             | Ok n' => (Ok tt, with_nodes (<[i := n']> (nodes wf)) qf)
             | Raise e => (Raise e, qf)
             end
         | _ => too_many
         end
       ∧ main env (RELEASE node_regex force online pending) wf
         = match found with
           | [(i, n)] =>
               if pending
               then (Ok tt,
                     with_nodes
                       (<[i := set_reprovision_pending
                                 (set_groups (f n) n)]> (nodes wf)) qf)
               else if bool_decide (get_reservation_owner n
                                    ≠ Some (jenkins_username env))
                       && negb force
               then (Raise (CommandError
                              (not_owner_msg n (get_reservation_owner n))),
                     qf)
               else (Ok tt,
                     with_nodes
                       (<[i := clear_reservation (set_groups (f n) n)
                                 online]> (nodes wf)) qf)
           | _ => too_many
           end
       ∧ main env (GROUP node_regex add clear get remove set) wf
         = (if get
            then
              (Ok tt,
               with_line
                 ("Available groups: "
                  +:+ join ","
                        (list_set
                           (foldl
                              (λ acc (jn : JenkinsNode),
                                 acc ++ get_node_labels
                                          (set_groups (f jn.2) jn.2))
                              [] found))) qf)
            else
              match found with
              | [(i, n)] =>
                  let m := set_groups (f n) n in
                  let write (m' : Node) : Result unit * World :=
                    (Ok tt, with_nodes (<[i := m']> (nodes wf)) qf) in
                  if clear then write (clear_all_groups m)
                  else if truthy set
                  then write (update_with_groups
                                (split ","%char (default "" set)) m)
                  else if truthy add
                  then write (add_groups
                                (split ","%char (default "" add)) m)
                  else if truthy remove
                  then write (remove_groups
                                (split ","%char (default "" remove)) m)
                  else (Ok tt, qf)
              | _ => too_many
              end)
       ∧ main env (CAPABILITIES node_regex patch) wf
         = match patch with
           | Some p =>
               (Ok tt, with_nodes (patched node_regex p <$> nodes wf) qf)
           | None => (Ok tt, qf)
           end)
  ∧ (∀ f : Node → gset string,
       (main env (RELEASE node_regex force online pending) (regroup f w)).1
       = (main env (RELEASE node_regex force online pending) w).1
       ∧ (main env (GROUP node_regex add clear get remove set)
            (regroup f w)).1
         = (main env (GROUP node_regex add clear get remove set) w).1
       ∧ (main env (CAPABILITIES node_regex patch) (regroup f w)).1
         = (main env (CAPABILITIES node_regex patch) w).1
       ∧ ((∀ i n, found = [(i, n)] → is_Some (reservation n)) →
          (main env (EXTEND node_regex time force) (regroup f w)).1
          = (main env (EXTEND node_regex time force) w).1)).
Proof.
  intros found. split; [|split; [|split; [|split]]].
  - split; [|split; [|split]].
    + unfold main, bind, get_nodes.
      destruct (select_from 0 (nodes w) node_regex None) as [|jn [|? ?]];
        cbn; try done.
      by destruct (extend_reservation env jn.2 time force).
    + unfold main, bind, get_nodes.
      destruct (select_from 0 (nodes w) node_regex None) as [|jn [|? ?]];
        cbn; try done.
      destruct pending; [done|].
      by destruct (bool_decide _ && negb force).
    + unfold main, bind, get_nodes. destruct get; [done|].
      destruct (select_from 0 (nodes w) node_regex None) as [|jn [|? ?]];
        cbn; try done.
      destruct clear; [done|]. destruct (truthy set); [done|].
      destruct (truthy add); [done|]. by destruct (truthy remove).
    + unfold main, bind, get_nodes. destruct patch as [p|]; [|done].
      cbn [fst snd]. by rewrite for_each_push_requests.
  - intros reg i n. rewrite select_from_elem_of. split.
    + by intros (j & -> & ? & ? & _).
    + intros [Hi Hn]. by exists i.
  - intros reg f. apply select_from_regroup.
  - intros f wf qf too_many. subst too_many qf wf.
    split; [|split; [|split]].
    + enter_regrouped. fold found.
      destruct found as [|[i n] [|? ?]]; try done.
      cbn [fst snd].
      by destruct (extend_reservation env (set_groups (f n) n) time force).
    + enter_regrouped. fold found.
      destruct found as [|[i n] [|? ?]]; try done.
      cbn [fst snd]. destruct pending; [done|].
      change (get_reservation_owner (set_groups (f n) n))
        with (get_reservation_owner n).
      by destruct (bool_decide _ && negb force).
    + unfold main, bind, get_nodes. rewrite select_regroup. cbn [fst snd].
      fold found. destruct get.
      { unfold print. do 4 f_equal. by rewrite foldl_fmap. }
      rewrite the_only_regroup.
      destruct found as [|[i n] [|? ?]]; try done.
      cbn [fst snd]. destruct clear; [done|].
      destruct (truthy set); [done|]. destruct (truthy add); [done|].
      by destruct (truthy remove).
    + unfold main, bind, get_nodes. cbn [fst snd].
      destruct patch as [p|]; [|done].
      by rewrite (for_each_update_capabilities node_regex p []).
  - intros f.
    apply (regroup_outcome env node_regex w time force online pending clear
             get add remove set patch f).
Qed.

End Properties.

(** ** The properties on the concrete setting *)

Lemma arity_check_witness :
  length (select_from (C := demo) 0 (nodes world0) (Some "lab") None) ≠ 1%nat
  ∧ (main (C := demo) alice (RELEASE (Some "lab") true false false) world0).1
    = Raise (CommandError
               (found_msg (C := demo) "node pattern" [(0%nat, lab01);
                                                      (1%nat, lab02)]))
  ∧ nodes (main (C := demo) alice
             (RELEASE (Some "lab") true false false) world0).2
    = nodes world0.
Proof.
  assert (length (select_from (C := demo) 0 (nodes world0) (Some "lab") None)
          ≠ 1%nat) as Hlen by (cbn; lia).
  split; [exact Hlen|].
  destruct (arity_check (C := demo) alice (Some "lab") world0
              "shared" true false true false false false 3 None None None
              None) as (_ & Hnest & _).
  destruct (Hnest Hlen) as (_ & -> & _). split; reflexivity.
Defined.

Lemma capability_set_no_match_witness :
  select_from (C := demo) 0 (nodes world0) (Some "zzz") None = []
  ∧ main (C := demo) alice
      (CAPABILITIES (Some "zzz") (Some {["cpu" := "x86_64"]})) world0
    = (Ok tt, with_request (Some "zzz", None) world0).
Proof.
  split; [reflexivity|].
  apply (capability_set_no_match (C := demo)). reflexivity.
Defined.

Lemma release_pending_witness :
  select_from (C := demo) 0 (nodes world0) (Some "lab-02") None
  = [(1%nat, lab02)]
  ∧ (main (C := demo) alice
       (RELEASE (Some "lab-02") false false true) world0).1 = Ok tt
  ∧ status (set_reprovision_pending lab02) = NodeStatus.REPROVISION_PENDING.
Proof.
  assert (select_from (C := demo) 0 (nodes world0) (Some "lab-02") None
          = [(1%nat, lab02)]) as Hsel by reflexivity.
  split; [exact Hsel|].
  destruct (release_pending (C := demo) alice (Some "lab-02") false false
              world0 1 lab02 Hsel) as (-> & _ & Hst & _).
  split; [reflexivity | exact Hst].
Defined.

Lemma owner_check_witness :
  select_from (C := demo) 0 (nodes world0) (Some "lab-02") None
  = [(1%nat, lab02)]
  ∧ reservation lab02 = Some by_bob
  ∧ (main (C := demo) bob (EXTEND (Some "lab-02") 2 false) world0).1 = Ok tt
  ∧ (main (C := demo) bob
       (RELEASE (Some "lab-02") false false false) world0).1 = Ok tt
  ∧ (main (C := demo) alice (EXTEND (Some "lab-02") 2 false) world0).1
    = Raise OwnershipError
  ∧ (main (C := demo) alice
       (RELEASE (Some "lab-02") false false false) world0).1
    = Raise (CommandError (not_owner_msg lab02 (Some "bob"))).
Proof.
  assert (select_from (C := demo) 0 (nodes world0) (Some "lab-02") None
          = [(1%nat, lab02)]) as Hsel by reflexivity.
  assert (reservation lab02 = Some by_bob) as Hr by reflexivity.
  split; [exact Hsel|]. split; [exact Hr|].
  destruct (owner_check (C := demo) bob (Some "lab-02") 2 false world0 1
              lab02 by_bob Hsel Hr) as [Hsame _].
  destruct (owner_check (C := demo) alice (Some "lab-02") 2 false world0 1
              lab02 by_bob Hsel Hr) as [_ Hother].
  destruct (Hsame eq_refl) as [-> ->].
  destruct (Hother ltac:(discriminate)) as [-> ->].
  repeat split.
Defined.

Lemma release_unreserved_witness :
  select_from (C := demo) 0 (nodes world0) (Some "lab-01") None
  = [(0%nat, lab01)]
  ∧ reservation lab01 = None
  ∧ main (C := demo) alice
      (RELEASE (Some "lab-01") true false false) world0
    = (Ok tt, with_request (Some "lab-01", None) world0)
  ∧ (main (C := demo) alice
       (RELEASE (Some "lab-01") false false false) world0).1
    = Raise (CommandError
               "Node lab-01 is reserved by None and can not be released unless used with --force flag.").
Proof.
  assert (select_from (C := demo) 0 (nodes world0) (Some "lab-01") None
          = [(0%nat, lab01)]) as Hsel by reflexivity.
  assert (reservation lab01 = None) as Hr by reflexivity.
  split; [exact Hsel|]. split; [exact Hr|].
  destruct (release_unreserved (C := demo) alice (Some "lab-01") true false
              world0 0 lab01 Hsel Hr) as [-> _].
  destruct (release_unreserved (C := demo) alice (Some "lab-01") false false
              world0 0 lab01 Hsel Hr) as [-> _].
  split; reflexivity.
Defined.

Lemma reserve_job_running_witness :
  select_from (C := demo) 0 (nodes world0) (Some "dev") None
  = [(2%nat, dev01)]
  ∧ status dev01 = NodeStatus.JOB_RUNNING
  ∧ main (C := demo) alice
      (RESERVE (Some "dev") "shared" true 3 false None false) world0
    = (Raise (CommandError (job_running_msg dev01 None)),
       with_request (Some "dev", None) world0)
  ∧ (main (C := demo) alice
       (RESERVE (Some "dev") "shared" true 3 false None true) world0).1
    = Ok tt
  ∧ nodes (main (C := demo) alice
             (RESERVE (Some "dev") "shared" true 3 false None true) world0).2
      !! 2%nat
    = Some (reserved_as "alice" alice 3 NodeStatus.JOB_RUNNING dev01).
Proof.
  assert (select_from (C := demo) 0 (nodes world0) (Some "dev") None
          = [(2%nat, dev01)]) as Hsel by reflexivity.
  assert (status dev01 = NodeStatus.JOB_RUNNING) as Hst by reflexivity.
  split; [exact Hsel|]. split; [exact Hst|].
  destruct (reserve_job_running (C := demo) alice (Some "dev") "shared" true
              false 3 None world0 2 dev01 Hsel Hst)
    as (-> & -> & Hlook & _).
  split; [reflexivity|]. split; [reflexivity | exact Hlook].
Defined.

Lemma reserve_online_witness :
  select_from (C := demo) 0 (nodes worldN) (Some "N") (Some "shared")
  = [(0%nat, nodeN)]
  ∧ status nodeN = NodeStatus.ONLINE
  ∧ reservation nodeN = None
  ∧ (reserve alice nodeN 3 (Some "alice") false).2
    = {| info_owner := "alice"; info_node := "N";
         info_expires_at := now alice + 3 * 3600 |}
  ∧ (main (C := demo) alice
       (RESERVE (Some "N") "shared" false 3 true (Some "alice") false)
       worldN).1 = Ok tt
  ∧ status <$> nodes (main (C := demo) alice
                        (RESERVE (Some "N") "shared" false 3 true
                           (Some "alice") false) worldN).2
    = [NodeStatus.RESERVED].
Proof.
  assert (select_from (C := demo) 0 (nodes worldN) (Some "N") (Some "shared")
          = [(0%nat, nodeN)]) as Hsel by reflexivity.
  assert (status nodeN = NodeStatus.ONLINE) as Hst by reflexivity.
  assert (reservation nodeN = None) as Hr by reflexivity.
  split; [exact Hsel|]. split; [exact Hst|]. split; [exact Hr|].
  destruct (reserve_online (C := demo) alice (Some "N") "shared" false true
              3 "alice" worldN 0 nodeN Hsel Hst Hr)
    as (-> & -> & _).
  repeat split.
Defined.

Lemma group_get_witness :
  select_from (C := demo) 0 (nodes world0) (Some "zzz") None = []
  ∧ main (C := demo) alice
      (GROUP (Some "zzz") None false true None None) world0
    = (Ok tt,
       with_line "Available groups: "
         (with_request (Some "zzz", None) world0)).
Proof.
  assert (select_from (C := demo) 0 (nodes world0) (Some "zzz") None = [])
    as Hsel by reflexivity.
  split; [exact Hsel|].
  destruct (group_get (C := demo) alice (Some "zzz") None None None false
              world0) as (aggregate & -> & _ & _ & Hnil).
  by rewrite (Hnil Hsel).
Defined.

Lemma selection_over_all_nests_witness :
  select_from (C := demo) 0 (nodes world0) (Some "lab-02") None
  = [(1%nat, lab02)]
  ∧ is_Some (reservation lab02)
  ∧ (main (C := demo) alice (EXTEND (Some "lab-02") 2 false)
       (regroup (λ _, ∅) world0)).1
    = (main (C := demo) alice (EXTEND (Some "lab-02") 2 false) world0).1
  ∧ main (C := demo) alice (RELEASE (Some "lab-02") false false true)
      (regroup (λ _, ∅) world0)
    = (Ok tt,
       with_nodes
         (<[1%nat := set_reprovision_pending (set_groups ∅ lab02)]>
            (nodes (regroup (λ _, ∅) world0)))
         (with_request (Some "lab-02", None) (regroup (λ _, ∅) world0))).
Proof.
  assert (select_from (C := demo) 0 (nodes world0) (Some "lab-02") None
          = [(1%nat, lab02)]) as Hsel by reflexivity.
  assert (is_Some (reservation lab02)) as Hreserved by by eexists.
  split; [exact Hsel|]. split; [exact Hreserved|].
  pose proof (selection_over_all_nests (C := demo) alice (Some "lab-02")
                world0 2 false false true false false None None None None)
    as Hall.
  cbv zeta in Hall. destruct Hall as (_ & _ & _ & Hacts & Hsame).
  destruct (Hsame (λ _, ∅)) as (_ & _ & _ & Hextend).
  destruct (Hacts (λ _, ∅)) as (_ & Hrelease & _).
  split.
  - apply Hextend. rewrite Hsel. by intros i n [= <- <-].
  - rewrite Hrelease, Hsel. reflexivity.
Defined.

(** ** Where the specification and the command part *)

(** Claim C1 as stated fails on a release with [pending]: a node reserved
    by ["bob"] is released by ["alice"] without [force] and nothing is
    raised. *)
Lemma release_pending_skips_owner_check :
  ¬ (∀ (C : Collaborators) env node_regex online pending w i n r,
       select_from 0 (nodes w) node_regex None = [(i, n)] →
       reservation n = Some r →
       owner r ≠ jenkins_username env →
       ∃ e, (main env (RELEASE node_regex false online pending) w).1
            = Raise e).
Proof.
  intros Hclaim.
  destruct (Hclaim demo alice (Some "lab-02") false true world0 1%nat lab02
              by_bob eq_refl eq_refl ltac:(discriminate)) as [e He].
  discriminate He.
Qed.

(** Where the command leaves claim C4: ["alice"] releases, without
    [force], a node that carries no reservation, and the ownership error
    is raised. *)
Lemma release_unreserved_needs_force :
  ¬ (∀ (C : Collaborators) env node_regex force online w i n,
       select_from 0 (nodes w) node_regex None = [(i, n)] →
       reservation n = None →
       (main env (RELEASE node_regex force online false) w).1 = Ok tt).
Proof.
  intros Hclaim.
  specialize (Hclaim demo alice (Some "lab-01") false false world0 0%nat
                lab01 eq_refl eq_refl).
  discriminate Hclaim.
Qed.

(** ** Properties of the rest of [cli.py] *)

Section MoreProperties.
Context {C : Collaborators} {R : Rendering} {F : Filesystem}.
Implicit Types (w : World) (env : Env) (n : Node) (i j : nat).
Implicit Types (node_regex : option string) (s piece : string).
Implicit Types (found : list JenkinsNode) (cols : list ColumnValue).

(** *** Strings *)

Lemma append_assoc (a b c : string) : (a +:+ b) +:+ c = a +:+ (b +:+ c).
Proof.
  induction a as [|x a IH]; [done|].
  change (String x ((a +:+ b) +:+ c) = String x (a +:+ (b +:+ c))).
  by rewrite IH.
Qed.

Lemma concat_cons (sep a b : string) (l : list string) :
  String.concat sep (a :: b :: l) = a +:+ sep +:+ String.concat sep (b :: l).
Proof. reflexivity. Qed.

Lemma split_cons sep s : ∃ piece pieces, split sep s = piece :: pieces.
Proof.
  induction s as [|c s (piece & pieces & IH)]; simpl; [by eauto|].
  destruct (Ascii.eqb c sep); [by eauto|]. rewrite IH. by eauto.
Qed.

(** [split] and [join] undo each other: the pieces, joined with the
    separator, give the text back; there is at least one piece, and no
    piece holds the separator.  So the groups and columns [cli.py] reads
    from a comma-separated option are never zero in number, and an empty
    text, a doubled comma or a comma at either end yields an empty name. *)
Theorem split_join (sep : Ascii.ascii) s :
  join (String sep "") (split sep s) = s
  ∧ split sep s ≠ []
  ∧ Forall (λ piece, free_of sep piece = true) (split sep s)
  ∧ split sep "" = [""]
  ∧ split sep (s +:+ String sep "") = split sep s ++ [""].
Proof.
  split; [|split; [|split; [|split; [done|]]]].
  - induction s as [|c s IH]; [done|]. simpl.
    destruct (split_cons sep s) as (piece & pieces & Hs).
    rewrite Hs in *. unfold join in *.
    destruct (Ascii.eqb_spec c sep) as [->|Hne].
    + by rewrite concat_cons, IH.
    + destruct pieces as [|piece' pieces]; [by rewrite <- IH|].
      rewrite concat_cons in *. by rewrite <- IH.
  - destruct (split_cons sep s) as (piece & pieces & ->). done.
  - induction s as [|c s IH]; simpl; [by repeat constructor|].
    destruct (Ascii.eqb c sep) eqn:Hc; [by constructor|].
    destruct (split_cons sep s) as (piece & pieces & Hs).
    rewrite Hs in *. inversion_clear IH as [|? ? Hp Hps].
    constructor; [|done]. simpl. by rewrite Hc, Hp.
  - induction s as [|c s IH]; simpl.
    + by rewrite Ascii.eqb_refl.
    + change (String c s +:+ String sep "")
        with (String c (s +:+ String sep "")).
      simpl. destruct (Ascii.eqb c sep); rewrite IH; [done|].
      by destruct (split_cons sep s) as (piece & pieces & ->).
Qed.

Lemma upper_char_comma c :
  Ascii.eqb (upper_char c) ","%char = Ascii.eqb c ","%char.
Proof. by destruct c as [[] [] [] [] [] [] [] []]. Qed.

Lemma lower_char_comma c :
  Ascii.eqb (lower_char c) ","%char = Ascii.eqb c ","%char.
Proof. by destruct c as [[] [] [] [] [] [] [] []]. Qed.

Lemma upper_char_idemp c : upper_char (upper_char c) = upper_char c.
Proof. by destruct c as [[] [] [] [] [] [] [] []]. Qed.

Lemma lower_char_idemp c : lower_char (lower_char c) = lower_char c.
Proof. by destruct c as [[] [] [] [] [] [] [] []]. Qed.

Lemma upper_lower_char c : upper_char (lower_char c) = upper_char c.
Proof. by destruct c as [[] [] [] [] [] [] [] []]. Qed.

Lemma lower_upper_char c : lower_char (upper_char c) = lower_char c.
Proof. by destruct c as [[] [] [] [] [] [] [] []]. Qed.

Lemma upper_idemp s : upper (upper s) = upper s.
Proof.
  induction s as [|c s IH]; [done|]. simpl.
  by rewrite upper_char_idemp, IH.
Qed.

Lemma lower_idemp s : lower (lower s) = lower s.
Proof.
  induction s as [|c s IH]; [done|]. simpl.
  by rewrite lower_char_idemp, IH.
Qed.

Lemma upper_lower s : upper (lower s) = upper s.
Proof.
  induction s as [|c s IH]; [done|]. simpl.
  by rewrite upper_lower_char, IH.
Qed.

Lemma lower_upper s : lower (upper s) = lower s.
Proof.
  induction s as [|c s IH]; [done|]. simpl.
  by rewrite lower_upper_char, IH.
Qed.

Lemma split_upper s : split ","%char (upper s) = upper <$> split ","%char s.
Proof.
  induction s as [|c s IH]; [done|]. simpl.
  rewrite upper_char_comma, IH.
  destruct (Ascii.eqb c ","%char); [done|].
  by destruct (split_cons ","%char s) as (piece & pieces & ->).
Qed.

Lemma split_lower s : split ","%char (lower s) = lower <$> split ","%char s.
Proof.
  induction s as [|c s IH]; [done|]. simpl.
  rewrite lower_char_comma, IH.
  destruct (Ascii.eqb c ","%char); [done|].
  by destruct (split_cons ","%char s) as (piece & pieces & ->).
Qed.

(** *** [get_columns] *)

Lemma get_columns_loop_ok (pieces : list string) cols :
  get_columns_loop pieces = Returns cols
  ↔ Forall2 (λ piece v, Columns_dict (upper piece) = Some v) pieces cols.
Proof.
  revert cols. induction pieces as [|p pieces IH]; intros cols; simpl.
  - split; [intros [= <-]; constructor | by intros ->%Forall2_nil_inv_l].
  - destruct (Columns_dict (upper p)) as [v|] eqn:Hp.
    + destruct (get_columns_loop pieces) as [cs|e] eqn:Hloop; simpl.
      * split.
        -- intros [= <-]. constructor; [done | by apply IH].
        -- intros (v' & cs' & Hv & Hcs & ->)%Forall2_cons_inv_l.
           apply IH in Hcs. congruence.
      * split; [done|].
        intros (v' & cs' & Hv & Hcs & ->)%Forall2_cons_inv_l.
        by apply IH in Hcs.
    + split; [done|].
      intros (v' & cs' & Hv & _)%Forall2_cons_inv_l. congruence.
Qed.

Lemma get_columns_loop_fail (pieces : list string) (e : error) :
  get_columns_loop pieces = Throws e
  ↔ ∃ before piece after,
      pieces = before ++ piece :: after
      ∧ Forall (λ p, is_Some (Columns_dict (upper p))) before
      ∧ Columns_dict (upper piece) = None
      ∧ e = Cli (CommandError ("Unknown column: " +:+ piece)).
Proof.
  induction pieces as [|p pieces IH]; simpl.
  - split; [done|]. by intros ([|? ?] & ? & ? & ? & _).
  - destruct (Columns_dict (upper p)) as [v|] eqn:Hp.
    + destruct (get_columns_loop pieces) as [cs|e'] eqn:Hloop; simpl.
      * split; [done|].
        intros ([|q before] & piece & after & Heq & Hbefore & Hnone & ->);
          simplify_eq/=.
        destruct IH as [_ IH]. discriminate IH.
        exists before, piece, after.
        by inversion_clear Hbefore.
      * split.
        -- intros [= ->].
           destruct IH as [(before & piece & after & -> & ? & ? & ->) _];
             [done|].
           exists (p :: before), piece, after.
           split; [done|]. split; [|done]. constructor; [by eexists|done].
        -- intros ([|q before] & piece & after & Heq & Hbefore & Hnone
                   & ->); simplify_eq/=.
           destruct IH as [_ IH]. rewrite IH; [done|].
           exists before, piece, after. by inversion_clear Hbefore.
    + split.
      * intros [= <-]. by exists [], p, pieces.
      * intros ([|q before] & piece & after & Heq & Hbefore & Hnone & ->);
          simplify_eq/=; [done|].
        inversion_clear Hbefore as [|? ? [? Hq] _]. congruence.
Qed.

Lemma Forall2_equiv {A B} (P Q : A → B → Prop) (l : list A) (k : list B) :
  (∀ x y, P x y ↔ Q x y) → Forall2 P l k ↔ Forall2 Q l k.
Proof.
  intros HPQ. split; intros Hall; eapply Forall2_impl; try exact Hall;
    intros x y; apply HPQ.
Qed.

(** Which texts name which columns.  For a column text in ASCII,
    [get_columns] returns exactly when each comma-separated piece, put in
    upper case, is a key among the eight column names and [DEFAULT]; the
    list returned then holds, piece by piece and in order, the values
    under those keys, so it is as long as the list of pieces. *)
Theorem get_columns_returns (columns : string) cols :
  ascii_text columns = true →
  (get_columns columns = Returns cols
   ↔ Forall2 (λ piece v, Columns_dict (upper piece) = Some v)
       (split ","%char columns) cols)
  ∧ (get_columns columns = Returns cols →
     length cols = length (split ","%char columns)).
Proof.
  intros _. split; [apply get_columns_loop_ok|].
  intros Hok%get_columns_loop_ok. by apply Forall2_length in Hok.
Qed.

(** For a column text in ASCII, [get_columns] raises exactly when some
    piece is no key in upper case, and what it raises is the
    [CommandError] that names the first such piece as it was typed. *)
Theorem get_columns_throws (columns : string) (e : error) :
  ascii_text columns = true →
  get_columns columns = Throws e
  ↔ ∃ before piece after,
      split ","%char columns = before ++ piece :: after
      ∧ Forall (λ p, is_Some (Columns_dict (upper p))) before
      ∧ Columns_dict (upper piece) = None
      ∧ e = Cli (CommandError ("Unknown column: " +:+ piece)).
Proof. intros _. apply get_columns_loop_fail. Qed.

(** The names of columns are read without regard to case: for a column
    text in ASCII, the text in upper case and the text in lower case give
    the same columns as the text itself, or fail when it fails. *)
Theorem get_columns_any_case (columns : string) cols :
  ascii_text columns = true →
  (get_columns (upper columns) = Returns cols
   ↔ get_columns columns = Returns cols)
  ∧ (get_columns (lower columns) = Returns cols
     ↔ get_columns columns = Returns cols).
Proof.
  intros _. unfold get_columns.
  rewrite !get_columns_loop_ok, split_upper, split_lower.
  rewrite !Forall2_fmap_l. split.
  - apply Forall2_equiv. intros piece v. cbn. by rewrite upper_idemp.
  - apply Forall2_equiv. intros piece v. cbn. by rewrite upper_lower.
Qed.

(** *** The renderers *)

Lemma try_map_returns {A B} (f : A → Try B) (g : A → B) (l : list A) :
  (∀ x, f x = Returns (g x)) → try_map f l = Returns (g <$> l).
Proof.
  intros Hf. induction l as [|x l IH]; [done|].
  simpl. by rewrite Hf, IH.
Qed.

Lemma try_map_fmap {A B D} (f : B → Try D) (h : A → B) (l : list A) :
  try_map f (h <$> l) = try_map (f ∘ h) l.
Proof. induction l as [|x l IH]; [done|]. simpl. by rewrite <- IH. Qed.

Lemma try_map_throws {A B} (f : A → Try B) (l : list A) x e :
  x ∈ l → (∀ y, f y = Throws e ∨ ∃ b, f y = Returns b) →
  f x = Throws e → try_map f l = Throws e.
Proof.
  intros Hx Hf Hfx. induction l as [|y l IH]; [by apply elem_of_nil in Hx|].
  simpl. apply elem_of_cons in Hx as [<- | Hx]; [by rewrite Hfx|].
  destruct (Hf y) as [-> | [b ->]]; [done|]. simpl. by rewrite IH.
Qed.

Lemma get_node_table_str_rows found (columns : string)
    (cs : list Columns.t) :
  get_columns columns = Returns (Col <$> cs) →
  get_node_table_str found columns
  = Returns
      (AsciiTable
         ((CStr <$> (Columns.to_str <$> cs))
          :: ((λ jn : JenkinsNode, to_data jn.2 <$> cs) <$> found))).
Proof.
  intros Hcols. unfold get_node_table_str. rewrite Hcols. simpl.
  rewrite try_map_fmap, (try_map_returns _ Columns.to_str) by done. simpl.
  rewrite (try_map_returns _ (λ jn : JenkinsNode, to_data jn.2 <$> cs));
    [done|].
  intros jn. rewrite try_map_fmap. by apply try_map_returns.
Qed.

(** With the columns that name columns, the table has the row of titles
    and then one row for each node, in the order of the nodes, with one
    cell for each column. *)
Theorem table_of_columns found (columns : string) (cs : list Columns.t) :
  get_columns columns = Returns (Col <$> cs) →
  get_node_table_str found columns
  = Returns
      (AsciiTable
         ((CStr <$> (Columns.to_str <$> cs))
          :: ((λ jn : JenkinsNode, to_data jn.2 <$> cs) <$> found)))
  ∧ length ((λ jn : JenkinsNode, to_data jn.2 <$> cs) <$> found)
    = length found
  ∧ Forall (λ row, length row = length cs)
      ((λ jn : JenkinsNode, to_data jn.2 <$> cs) <$> found).
Proof.
  intros Hcols. split; [by apply get_node_table_str_rows|].
  split; [by rewrite length_fmap|].
  apply Forall_fmap, Forall_forall. intros jn _. cbn.
  by rewrite length_fmap.
Qed.

(** With [columns] left at its default the table cannot fail, and it is
    the table of six columns that the single-candidate check shows. *)
Theorem table_of_default_columns found :
  get_columns DEFAULT_text = Returns (Col <$> Columns.DEFAULT)
  ∧ get_node_table_str found DEFAULT_text
    = Returns (_get_node_table_str found).
Proof.
  assert (get_columns DEFAULT_text = Returns (Col <$> Columns.DEFAULT))
    as Hdefault by reflexivity.
  split; [done|]. by rewrite (get_node_table_str_rows _ _ _ Hdefault).
Qed.

Lemma parseable_loop_rows (cs : list Columns.t) total rest acc count :
  (count + length rest = total + 1)%nat →
  parseable_loop total (Col <$> cs) rest acc count
  = Returns
      (acc +:+ join nl
                 ((λ jn : JenkinsNode,
                     join ";" (py_str <$> (to_data jn.2 <$> cs)))
                    <$> rest)).
Proof.
  revert acc count.
  induction rest as [|jn rest IH]; intros acc count Hcount.
  - simpl. by rewrite append_empty_r.
  - cbn [parseable_loop].
    rewrite try_map_fmap, (try_map_returns _ (to_data jn.2)) by done.
    cbn [try_bind]. rewrite IH by (cbn [length] in Hcount; lia).
    f_equal. destruct rest as [|jn' rest].
    + rewrite decide_False by (cbn [length] in Hcount; lia).
      cbn [fmap list_fmap]. unfold join. cbn [String.concat].
      by rewrite append_empty_r.
    + rewrite decide_True by (cbn [length] in Hcount; lia).
      cbn [fmap list_fmap]. unfold join. rewrite concat_cons.
      by rewrite !append_assoc.
Qed.

(** With the columns that name columns, the delimited text is one line
    for each node, in the order of the nodes, the values of the line
    joined with a semicolon and the lines joined with a newline: there is
    no newline after the last line, and no text at all for no node. *)
Theorem parseable_of_columns found (columns : string)
    (cs : list Columns.t) :
  get_columns columns = Returns (Col <$> cs) →
  _get_node_parseable_str found columns
  = Returns
      (join nl
         ((λ jn : JenkinsNode,
             join ";" (py_str <$> (to_data jn.2 <$> cs))) <$> found))
  ∧ _get_node_parseable_str [] columns = Returns "".
Proof.
  intros Hcols. unfold _get_node_parseable_str. rewrite Hcols.
  cbn [try_bind]. split; [|done].
  rewrite parseable_loop_rows by lia. done.
Qed.

Lemma Columns_dict_DefaultText key :
  Columns_dict key = Some DefaultText ↔ key = "DEFAULT".
Proof.
  unfold Columns_dict.
  repeat match goal with
         | |- context [String.eqb key ?k] =>
             destruct (String.eqb_spec key k) as [->|?]; [by split|]
         end.
  by split.
Qed.

(** [get_columns] also accepts the name of the class attribute [DEFAULT],
    in any case, as if it were a column, and returns the default text in
    its place.  The renderers then index their dictionaries with that
    text: the table raises [KeyError] whatever the nodes are, none
    included, and the delimited text raises it as soon as there is a
    node, while for no node it is the empty text. *)
Theorem default_is_no_column found (columns : string) cols :
  get_columns columns = Returns cols →
  DefaultText ∈ cols →
  (∃ piece, piece ∈ split ","%char columns ∧ upper piece = "DEFAULT")
  ∧ get_node_table_str found columns = Throws (KeyError DEFAULT_text)
  ∧ (found ≠ [] →
     _get_node_parseable_str found columns
     = Throws (KeyError DEFAULT_text))
  ∧ _get_node_parseable_str [] columns = Returns "".
Proof.
  intros Hcols Hin. split; [|split; [|split]].
  - apply get_columns_loop_ok in Hcols.
    apply list_elem_of_lookup in Hin as [k Hk].
    destruct (Forall2_lookup_r _ _ _ _ _ Hcols Hk) as (piece & Hp & Hd).
    exists piece. split; [by eapply list_elem_of_lookup_2|].
    by apply Columns_dict_DefaultText.
  - unfold get_node_table_str. rewrite Hcols. cbn [try_bind].
    rewrite (try_map_throws to_str_value cols DefaultText
               (KeyError DEFAULT_text)); [done | done | | done].
    intros [c|]; [right; by eexists | by left].
  - intros Hfound. unfold _get_node_parseable_str. rewrite Hcols.
    cbn [try_bind]. destruct found as [|jn found]; [done|].
    cbn [parseable_loop].
    rewrite (try_map_throws (to_data_value jn.2) cols DefaultText
               (KeyError DEFAULT_text)); [done | done | | done].
    intros [c|]; [right; by eexists | by left].
  - unfold _get_node_parseable_str. by rewrite Hcols.
Qed.

(** *** [list] *)

Lemma main_list_printing node_regex (group : string) (all : bool)
    (format : option string) (column : string) (state : option string) w :
  ∃ text : Try string,
    main_list node_regex group all format column state w
    = match text with
      | Returns line =>
          (Returns tt,
           with_line line
             (with_request (node_regex, if all then None else Some group)
                w))
      | Throws e =>
          (Throws e,
           with_request (node_regex, if all then None else Some group) w)
      end.
Proof.
  unfold main_list, get_nodes. cbv zeta.
  destruct (bool_decide (format = None) || bool_decide (format = Some "table"));
    [by eexists|].
  destruct (bool_decide (format = Some "json"));
    [by eexists (Returns _)|].
  destruct (bool_decide (default "" format ∈ LIST_FORMATS));
    [by eexists|].
  by eexists (Throws _).
Qed.

(** [list] reads and never writes: whatever its options and whether it
    ends well or not, the nodes are what they were and one request has
    been made, for the regex and for the group, or for no group when
    [all] is set.  It prints one line when it ends well and none when it
    raises. *)
Theorem list_reads_only node_regex (group : string) (all : bool)
    (format : option string) (column : string) (state : option string) w :
  let result := main_list node_regex group all format column state w in
  nodes result.2 = nodes w
  ∧ requests result.2
    = requests w ++ [(node_regex, if all then None else Some group)]
  ∧ match result.1 with
    | Returns _ => ∃ line, stdout result.2 = stdout w ++ [line]
    | Throws _ => stdout result.2 = stdout w
    end.
Proof.
  destruct (main_list_printing node_regex group all format column state w)
    as [text Heq].
  cbv zeta. rewrite Heq. destruct text; cbn; eauto.
Qed.

(** A format other than [table], [json] and [csv] is refused with a
    [CommandError] that quotes it, whatever the columns and the state
    asked for, and nothing is printed. *)
Theorem list_format_not_supported node_regex (group : string) (all : bool)
    (format : string) (column : string) (state : option string) w :
  format ≠ "table" → format ≠ "json" → format ≠ "csv" →
  main_list node_regex group all (Some format) column state w
  = (Throws (Cli (CommandError
                    ("List format '" +:+ format +:+ "' is not supported."))),
     with_request (node_regex, if all then None else Some group) w).
Proof.
  intros Htable Hjson Hcsv. unfold main_list, get_nodes. cbv zeta.
  rewrite (bool_decide_eq_false_2 (Some format = None)) by done.
  rewrite (bool_decide_eq_false_2 (Some format = Some "table"))
    by congruence.
  rewrite (bool_decide_eq_false_2 (Some format = Some "json"))
    by congruence.
  rewrite bool_decide_eq_false_2; [done|].
  unfold LIST_FORMATS. cbn [from_option id]. intros Hin.
  repeat (apply elem_of_cons in Hin as [? | Hin]; [done|]).
  by apply elem_of_nil in Hin.
Qed.

(** With format [json] the columns are not read: [list] ends well and
    prints the same line for every column text, one that names no column
    included. *)
Theorem list_json_ignores_columns node_regex (group : string) (all : bool)
    (column column' : string) (state : option string) w :
  main_list node_regex group all (Some "json") column state w
  = main_list node_regex group all (Some "json") column' state w
  ∧ (main_list node_regex group all (Some "json") column state w).1
    = Returns tt.
Proof. unfold main_list, get_nodes. cbv zeta. by destruct (truthy state). Qed.

Lemma truthy_lower s : truthy (Some (lower s)) = truthy (Some s).
Proof. by destruct s. Qed.

Lemma truthy_upper s : truthy (Some (upper s)) = truthy (Some s).
Proof. by destruct s. Qed.

(** The state asked for is matched without regard to its case: an ASCII
    state text, the same text in lower case and the same text in upper
    case list the same nodes.  An empty state text filters nothing, like
    no state at all. *)
Theorem list_state_any_case node_regex (group : string) (all : bool)
    (format : option string) (column : string) (state : string) w :
  ascii_text state = true →
  main_list node_regex group all format column (Some (lower state)) w
  = main_list node_regex group all format column (Some state) w
  ∧ main_list node_regex group all format column (Some (upper state)) w
    = main_list node_regex group all format column (Some state) w
  ∧ main_list node_regex group all format column (Some "") w
    = main_list node_regex group all format column None w.
Proof.
  intros _. unfold main_list. cbv zeta.
  rewrite truthy_lower, truthy_upper. cbn [from_option id].
  by rewrite lower_idemp, lower_upper.
Qed.

(** *** [parse_args] *)

Lemma first_readable_Some (paths : list string) (p : string) :
  first_readable paths = Some p
  ↔ ∃ before after,
      paths = before ++ p :: after
      ∧ readable_file p = true
      ∧ Forall (λ q, readable_file q = false) before.
Proof.
  induction paths as [|q paths IH]; simpl.
  - split; [done|]. by intros ([|? ?] & ? & ? & _).
  - destruct (readable_file q) eqn:Hq.
    + split.
      * intros [= ->]. by exists [], paths.
      * intros ([|q' before] & after & Heq & Hp & Hbefore); simplify_eq/=;
          [done|].
        inversion_clear Hbefore. congruence.
    + rewrite IH. split.
      * intros (before & after & -> & Hp & Hbefore).
        exists (q :: before), after. split; [done|]. split; [done|].
        by constructor.
      * intros ([|q' before] & after & Heq & Hp & Hbefore); simplify_eq/=;
          [congruence|].
        exists before, after. by inversion_clear Hbefore.
Qed.

Lemma first_readable_None (paths : list string) :
  first_readable paths = None
  ↔ Forall (λ q, readable_file q = false) paths.
Proof.
  induction paths as [|q paths IH]; simpl; [by split; [constructor|]|].
  destruct (readable_file q) eqn:Hq.
  - split; [done|]. intros Hall. inversion_clear Hall. congruence.
  - rewrite IH. split; [by constructor|]. intros Hall.
    by inversion_clear Hall.
Qed.

Lemma first_readable_truthy (p : string) :
  _get_default_config = Some p → truthy (Some p) = true.
Proof.
  unfold _get_default_config, DEFAULT_CONFIG. simpl.
  destruct (readable_file _).
  - intros [= <-]. by destruct home.
  - destruct (readable_file _); [by intros [= <-] | done].
Qed.

(** [parse_args] raises exactly when no configuration file is named (or
    its name is empty), the credentials are incomplete, and neither of
    the two default files, the one under the home directory and the one
    under [/etc], is a readable file.  What it raises is the
    [CommandError] that asks for one or the other. *)
Theorem parse_args_raises (args : Namespace) (e : exn) :
  (parse_args args).1 = Raise e
  ↔ truthy (conf args) = false
    ∧ credentials args = false
    ∧ Forall (λ path, readable_file path = false)
        [home +:+ "/.config/jenkins_jobs/jenkins_jobs.ini";
         "/etc/jenkins_jobs/jenkins_jobs.ini"]
    ∧ e = CommandError
            ("You must provide either username, password"
             +:+ " and url or path to configuration file"
             +:+ " via --conf option.").
Proof.
  unfold parse_args, credentials. cbn [fst].
  destruct (truthy (conf args)); cbn [negb andb].
  { split; [done | by intros (? & _)]. }
  destruct (truthy (user args) && truthy (password args)
            && truthy (url args)); cbn [negb].
  { split; [done | by intros (_ & ? & _)]. }
  destruct _get_default_config as [p|] eqn:Hdefault.
  - rewrite (first_readable_truthy p Hdefault). split; [done|].
    intros (_ & _ & Hnone & _).
    apply first_readable_None in Hnone.
    unfold _get_default_config, DEFAULT_CONFIG in Hdefault. congruence.
  - cbn [truthy]. split.
    + intros [= <-]. repeat split.
      by apply first_readable_None.
    + by intros (_ & _ & _ & ->).
Qed.

(** When [parse_args] returns, it returns the namespace it was given,
    but for the configuration file: with a file named or with complete
    credentials the namespace is untouched and the default files are
    not looked for; otherwise the file becomes the first of the default
    files that is readable, the one under the home directory before the
    one under [/etc]. *)
Theorem parse_args_returns (args args' : Namespace) :
  (parse_args args).1 = Ok args' →
  url args' = url args ∧ user args' = user args
  ∧ password args' = password args ∧ verbose args' = verbose args
  ∧ parseable args' = parseable args
  ∧ (truthy (conf args) || credentials args = true → args' = args)
  ∧ (truthy (conf args) || credentials args = false →
     ∃ path before after,
       conf args' = Some path
       ∧ DEFAULT_CONFIG = before ++ path :: after
       ∧ readable_file path = true
       ∧ Forall (λ q, readable_file q = false) before).
Proof.
  unfold parse_args, credentials. cbn [fst].
  destruct (truthy (conf args)); cbn [negb andb orb].
  { intros [= <-]. by repeat split. }
  destruct (truthy (user args) && truthy (password args)
            && truthy (url args)); cbn [negb].
  { intros [= <-]. by repeat split. }
  destruct _get_default_config as [p|] eqn:Hdefault.
  - rewrite (first_readable_truthy p Hdefault). intros [= <-].
    repeat split; try done.
    intros _. apply first_readable_Some in Hdefault
      as (before & after & ? & ? & ?).
    by exists p, before, after.
  - done.
Qed.

(** *** More on the commands *)

(** What a command does to the nodes: nothing, or one node selected by
    its request is replaced, or the capability patch is applied. *)
Lemma main_nodes env (parser_args : Args) w :
  nodes (main env parser_args w).2 = nodes w
  ∨ (∃ group i n n',
       (i, n) ∈ select_from 0 (nodes w) (regex_of parser_args) group
       ∧ (∀ g all time json o force,
            parser_args = RESERVE (regex_of parser_args) g all time json o
                            force →
            group = if all then None else Some g)
       ∧ nodes (main env parser_args w).2 = <[i := n']> (nodes w))
  ∨ (∃ patch,
       (∃ node_regex, parser_args = CAPABILITIES node_regex (Some patch))
       ∧ nodes (main env parser_args w).2
         = patched (regex_of parser_args) patch <$> nodes w).
Proof.
  destruct parser_args as [rx g all time json o force | rx time force
    | rx force online pending | rx add clear get remove set | rx patch];
    unfold main, bind, get_nodes; cbn [regex_of].
  - set (found := select_from _ _ _ _).
    destruct found as [|[i n] [|? ?]] eqn:Hfound; cbn; try by left.
    destruct (bool_decide _ && negb force); [by left|].
    destruct (bool_decide _ && negb force); [by left|].
    right; left. exists (if all then None else Some g), i, n.
    eexists. split; [fold found; rewrite Hfound; apply list_elem_of_here|].
    split; [by intros ? ? ? ? ? ? [= -> ->]|].
    by destruct json.
  - destruct (select_from _ _ _ _) as [|[i n] [|? ?]] eqn:Hfound; cbn;
      try by left.
    destruct (extend_reservation env n time force) as [n'|e]; [|by left].
    right; left. exists None, i, n, n'.
    split; [rewrite Hfound; apply list_elem_of_here|]. by split.
  - destruct (select_from _ _ _ _) as [|[i n] [|? ?]] eqn:Hfound; cbn;
      try by left.
    destruct pending.
    + right; left. exists None, i, n. eexists.
      split; [rewrite Hfound; apply list_elem_of_here|]. by split.
    + destruct (bool_decide _ && negb force); [by left|].
      right; left. exists None, i, n. eexists.
      split; [rewrite Hfound; apply list_elem_of_here|]. by split.
  - destruct get; [by left|].
    destruct (select_from _ _ _ _) as [|[i n] [|? ?]] eqn:Hfound; cbn;
      try by left.
    assert (∀ n', (i, n) ∈ select_from 0 (nodes w) rx None
                  ∧ (∀ g all time json o force,
                       GROUP rx add clear false remove set
                       = RESERVE rx g all time json o force →
                       None = if all then None else Some g)
                  ∧ <[i := n']> (nodes w) = <[i := n']> (nodes w)) as Hone.
    { intros n'. split; [rewrite Hfound; apply list_elem_of_here|].
      by split. }
    destruct clear; [right; left; exists None, i, n; eexists; apply Hone|].
    destruct (truthy set);
      [right; left; exists None, i, n; eexists; apply Hone|].
    destruct (truthy add);
      [right; left; exists None, i, n; eexists; apply Hone|].
    destruct (truthy remove);
      [right; left; exists None, i, n; eexists; apply Hone|].
    by left.
  - destruct patch as [patch|]; [|by left].
    right; right. exists patch. split; [by eexists|]. cbn [fst snd].
    by rewrite (for_each_update_capabilities rx patch []).
Qed.


(** Reserve without [all] keeps to the nest: a node that is not in the
    group asked for is afterwards what it was before, with [force] as
    without. *)
Theorem reserve_keeps_to_nest env node_regex (group : string) (time : Z)
    (json force : bool) (reservation_owner : option string) w j n :
  nodes w !! j = Some n →
  group ∉ groups n →
  nodes (main env (RESERVE node_regex group false time json
                     reservation_owner force) w).2 !! j = Some n.
Proof.
  intros Hj Hn.
  destruct (main_nodes env (RESERVE node_regex group false time json
                              reservation_owner force) w)
    as [-> | [(g & i & m & m' & Hsel & Hg & ->)
              | (patch & [? [=]] & _)]]; [done|].
  rewrite (Hg group false time json reservation_owner force eq_refl)
    in Hsel.
  apply select_from_elem_of in Hsel as (k & -> & Hk & _ & Hm).
  rewrite list_lookup_insert_ne; [done|].
  intros <-. cbn in Hj. cbn in Hm. apply bool_decide_eq_true in Hm.
  congruence.
Qed.

(** Reserve without [force] refuses a single candidate that is neither
    online nor running a job, with the [CommandError] that tells its
    status, and changes nothing. *)
Theorem reserve_not_online env node_regex (group : string)
    (all json : bool) (time : Z) (reservation_owner : option string)
    w i n :
  let g := if all then None else Some group in
  select_from 0 (nodes w) node_regex g = [(i, n)] →
  status n ≠ NodeStatus.ONLINE →
  status n ≠ NodeStatus.JOB_RUNNING →
  main env (RESERVE node_regex group all time json reservation_owner
              false) w
  = (Raise (CommandError (not_online_msg n)),
     with_request (node_regex, g) w).
Proof.
  intros g Hsel Honline Hjob. subst g.
  unfold main, bind, get_nodes. rewrite Hsel.
  cbn [the_only ret raise fst snd]. unfold get_node_status.
  rewrite bool_decide_eq_false_2 by done.
  by rewrite bool_decide_eq_true_2.
Qed.

(** Reserve with [force] skips both checks of the status: on a single
    candidate, whatever its status and whether or not someone holds it,
    nothing is raised, the node becomes what [Node.reserve] makes of it,
    and the info is printed when [json] is set. *)
Theorem reserve_force env node_regex (group : string) (all json : bool)
    (time : Z) (reservation_owner : option string) w i n :
  let g := if all then None else Some group in
  select_from 0 (nodes w) node_regex g = [(i, n)] →
  main env (RESERVE node_regex group all time json reservation_owner
              true) w
  = (Ok tt,
     let result := reserve env n time reservation_owner true in
     let w' := with_nodes (<[i := result.1]> (nodes w))
                 (with_request (node_regex, g) w) in
     if json then with_line (json_dumps result.2) w' else w').
Proof.
  intros g Hsel. subst g. unfold main, bind, get_nodes. rewrite Hsel.
  cbn [the_only ret raise fst snd negb]. rewrite !andb_false_r.
  unfold push. by destruct json.
Qed.

(** Release with [force] and without [pending] does not compare owners:
    on a single candidate, whoever holds it, nothing is raised and the
    reservation is cleared. *)
Theorem release_force env node_regex (online : bool) w i n :
  select_from 0 (nodes w) node_regex None = [(i, n)] →
  main env (RELEASE node_regex true online false) w
  = (Ok tt,
     with_nodes (<[i := clear_reservation n online]> (nodes w))
       (with_request (node_regex, None) w)).
Proof.
  intros Hsel. unfold main, bind, get_nodes. rewrite Hsel.
  cbn [the_only ret raise fst snd negb]. by rewrite andb_false_r.
Qed.

(** A group command whose list of groups is empty does nothing: with a
    single candidate, without [get] and [clear], and with the texts of
    [set], [add] and [remove] each absent or empty, nothing is raised and
    nothing is changed. *)
Theorem group_nothing_to_do env node_regex (add remove set : option string)
    w i n :
  select_from 0 (nodes w) node_regex None = [(i, n)] →
  truthy set = false → truthy add = false → truthy remove = false →
  main env (GROUP node_regex add false false remove set) w
  = (Ok tt, with_request (node_regex, None) w).
Proof.
  intros Hsel Hset Hadd Hremove. unfold main, bind, get_nodes.
  rewrite Hsel. cbn [the_only ret raise fst snd].
  by rewrite Hset, Hadd, Hremove.
Qed.

End MoreProperties.

(** ** The further properties on the concrete setting *)

Lemma get_columns_returns_witness :
  ascii_text "Host,STATE" = true
  ∧ get_columns "Host,STATE"
    = Returns [Col Columns.HOST; Col Columns.STATE]
  ∧ length [Col Columns.HOST; Col Columns.STATE]
    = length (split ","%char "Host,STATE").
Proof.
  assert (ascii_text "Host,STATE" = true) as Hascii by reflexivity.
  split; [exact Hascii|].
  destruct (get_columns_returns "Host,STATE"
              [Col Columns.HOST; Col Columns.STATE] Hascii)
    as [Hiff Hlen].
  assert (get_columns "Host,STATE"
          = Returns [Col Columns.HOST; Col Columns.STATE]) as Hok.
  { apply Hiff. repeat constructor. }
  split; [exact Hok | exact (Hlen Hok)].
Defined.

Lemma get_columns_throws_witness :
  ascii_text "host,foo,bar" = true
  ∧ get_columns "host,foo,bar"
    = Throws (Cli (CommandError "Unknown column: foo")).
Proof.
  assert (ascii_text "host,foo,bar" = true) as Hascii by reflexivity.
  split; [exact Hascii|].
  apply (get_columns_throws "host,foo,bar" _ Hascii).
  exists ["host"], "foo", ["bar"].
  split; [reflexivity|]. split; [|split; reflexivity].
  repeat constructor. by eexists.
Defined.

Lemma get_columns_any_case_witness :
  ascii_text "Host,cpu" = true
  ∧ get_columns (upper "Host,cpu")
    = Returns [Col Columns.HOST; Col Columns.CPU]
  ∧ get_columns (lower "Host,cpu")
    = Returns [Col Columns.HOST; Col Columns.CPU].
Proof.
  assert (ascii_text "Host,cpu" = true) as Hascii by reflexivity.
  split; [exact Hascii|].
  destruct (get_columns_any_case "Host,cpu"
              [Col Columns.HOST; Col Columns.CPU] Hascii) as [Hup Hlow].
  split; [apply Hup | apply Hlow]; reflexivity.
Defined.

Lemma table_of_columns_witness :
  get_columns "host,state" = Returns (Col <$> [Columns.HOST; Columns.STATE])
  ∧ get_node_table_str (C := demo) [(0%nat, lab01); (1%nat, lab02)]
      "host,state"
    = Returns "lab-01,lab-02".
Proof.
  assert (get_columns "host,state"
          = Returns (Col <$> [Columns.HOST; Columns.STATE])) as Hcols
    by reflexivity.
  split; [exact Hcols|].
  destruct (table_of_columns (C := demo) [(0%nat, lab01); (1%nat, lab02)]
              "host,state" [Columns.HOST; Columns.STATE] Hcols) as [-> _].
  reflexivity.
Defined.

Lemma parseable_of_columns_witness :
  get_columns "host,reserved"
  = Returns (Col <$> [Columns.HOST; Columns.RESERVED])
  ∧ _get_node_parseable_str (C := demo) (R := demo_rendering)
      [(0%nat, lab01); (1%nat, lab02)] "host,reserved"
    = Returns ("lab-01;None" +:+ nl +:+ "lab-02;bob").
Proof.
  assert (get_columns "host,reserved"
          = Returns (Col <$> [Columns.HOST; Columns.RESERVED])) as Hcols
    by reflexivity.
  split; [exact Hcols|].
  destruct (parseable_of_columns (C := demo) (R := demo_rendering)
              [(0%nat, lab01); (1%nat, lab02)] "host,reserved"
              [Columns.HOST; Columns.RESERVED] Hcols) as [-> _].
  reflexivity.
Defined.

Lemma default_is_no_column_witness :
  get_columns "host,Default" = Returns [Col Columns.HOST; DefaultText]
  ∧ DefaultText ∈ [Col Columns.HOST; DefaultText]
  ∧ get_node_table_str (C := demo) [] "host,Default"
    = Throws (KeyError DEFAULT_text)
  ∧ _get_node_parseable_str (C := demo) (R := demo_rendering)
      [(0%nat, lab01)] "host,Default"
    = Throws (KeyError DEFAULT_text).
Proof.
  assert (get_columns "host,Default"
          = Returns [Col Columns.HOST; DefaultText]) as Hcols
    by reflexivity.
  assert (DefaultText ∈ [Col Columns.HOST; DefaultText]) as Hin
    by (apply list_elem_of_further, list_elem_of_here).
  split; [exact Hcols|]. split; [exact Hin|].
  destruct (default_is_no_column (C := demo) (R := demo_rendering) []
              "host,Default" _ Hcols Hin) as (_ & Htable & _).
  destruct (default_is_no_column (C := demo) (R := demo_rendering)
              [(0%nat, lab01)] "host,Default" _ Hcols Hin)
    as (_ & _ & Hparse & _).
  split; [exact Htable | by apply Hparse].
Defined.

Lemma list_format_not_supported_witness :
  "xml" ≠ "table" ∧ "xml" ≠ "json" ∧ "xml" ≠ "csv"
  ∧ (main_list (C := demo) (R := demo_rendering) None "shared" true
       (Some "xml") "bogus" None world0).1
    = Throws (Cli (CommandError "List format 'xml' is not supported.")).
Proof.
  assert ("xml" ≠ "table") as H1 by discriminate.
  assert ("xml" ≠ "json") as H2 by discriminate.
  assert ("xml" ≠ "csv") as H3 by discriminate.
  split; [exact H1|]. split; [exact H2|]. split; [exact H3|].
  by rewrite (list_format_not_supported (C := demo) (R := demo_rendering)
                None "shared" true "xml" "bogus" None world0 H1 H2 H3).
Defined.

Lemma list_state_any_case_witness :
  ascii_text "Reserved" = true
  ∧ main_list (C := demo) (R := demo_rendering) None "shared" true
      (Some "csv") "host" (Some "RESERVED") world0
    = main_list (C := demo) (R := demo_rendering) None "shared" true
        (Some "csv") "host" (Some "Reserved") world0
  ∧ stdout (main_list (C := demo) (R := demo_rendering) None "shared" true
              (Some "csv") "host" (Some "Reserved") world0).2
    = ["lab-02"].
Proof.
  assert (ascii_text "Reserved" = true) as Hascii by reflexivity.
  split; [exact Hascii|].
  destruct (list_state_any_case (C := demo) (R := demo_rendering) None
              "shared" true (Some "csv") "host" "Reserved" world0 Hascii)
    as (_ & Hupper & _).
  split; [exact Hupper | reflexivity].
Defined.

Lemma parse_args_returns_witness :
  (parse_args (F := demo_fs) no_options).1
  = Ok (set_conf (Some "/etc/jenkins_jobs/jenkins_jobs.ini") no_options)
  ∧ user (set_conf (Some "/etc/jenkins_jobs/jenkins_jobs.ini") no_options)
    = Some "alice".
Proof.
  assert ((parse_args (F := demo_fs) no_options).1
          = Ok (set_conf (Some "/etc/jenkins_jobs/jenkins_jobs.ini")
                  no_options)) as Hok by reflexivity.
  split; [exact Hok|].
  by destruct (parse_args_returns (F := demo_fs) _ _ Hok) as (_ & -> & _).
Defined.


Lemma reserve_keeps_to_nest_witness :
  nodes world0 !! 2%nat = Some dev01
  ∧ ("shared" ∉ groups dev01)
  ∧ nodes (main (C := demo) alice
             (RESERVE (Some "dev") "shared" false 3 false None true)
             world0).2 !! 2%nat = Some dev01.
Proof.
  assert (nodes world0 !! 2%nat = Some dev01) as Hj by reflexivity.
  assert ("shared" ∉ groups dev01) as Hg
    by (apply (bool_decide_unpack _); vm_compute; exact I).
  split; [exact Hj|]. split; [exact Hg|].
  exact (reserve_keeps_to_nest (C := demo) alice (Some "dev") "shared" 3
           false true None world0 2 dev01 Hj Hg).
Defined.

Lemma reserve_not_online_witness :
  select_from (C := demo) 0 (nodes world0) (Some "lab-02") (Some "shared")
  = [(1%nat, lab02)]
  ∧ status lab02 ≠ NodeStatus.ONLINE
  ∧ status lab02 ≠ NodeStatus.JOB_RUNNING
  ∧ main (C := demo) alice
      (RESERVE (Some "lab-02") "shared" false 3 false None false) world0
    = (Raise (CommandError
                "Node lab-02 is not online and can not be reserved. Node status: reserved. Try release the node."),
       with_request (Some "lab-02", Some "shared") world0).
Proof.
  assert (select_from (C := demo) 0 (nodes world0) (Some "lab-02")
            (Some "shared") = [(1%nat, lab02)]) as Hsel by reflexivity.
  assert (status lab02 ≠ NodeStatus.ONLINE) as H1 by discriminate.
  assert (status lab02 ≠ NodeStatus.JOB_RUNNING) as H2 by discriminate.
  split; [exact Hsel|]. split; [exact H1|]. split; [exact H2|].
  by rewrite (reserve_not_online (C := demo) alice (Some "lab-02") "shared"
                false false 3 None world0 1 lab02 Hsel H1 H2).
Defined.

Lemma reserve_force_witness :
  select_from (C := demo) 0 (nodes world0) (Some "lab-02") (Some "shared")
  = [(1%nat, lab02)]
  ∧ (main (C := demo) alice
       (RESERVE (Some "lab-02") "shared" false 3 false None true)
       world0).1 = Ok tt
  ∧ get_reservation_owner
      <$> (nodes (main (C := demo) alice
                    (RESERVE (Some "lab-02") "shared" false 3 false None
                       true) world0).2 !! 1%nat)
    = Some (Some "alice").
Proof.
  assert (select_from (C := demo) 0 (nodes world0) (Some "lab-02")
            (Some "shared") = [(1%nat, lab02)]) as Hsel by reflexivity.
  split; [exact Hsel|].
  by rewrite (reserve_force (C := demo) alice (Some "lab-02") "shared"
                false false 3 None world0 1 lab02 Hsel).
Defined.

Lemma release_force_witness :
  select_from (C := demo) 0 (nodes world0) (Some "lab-02") None
  = [(1%nat, lab02)]
  ∧ get_reservation_owner lab02 ≠ Some (jenkins_username alice)
  ∧ main (C := demo) alice (RELEASE (Some "lab-02") true true false) world0
    = (Ok tt,
       with_nodes
         (<[1%nat := clear_reservation (C := demo) lab02 true]>
            (nodes world0))
         (with_request (Some "lab-02", None) world0)).
Proof.
  assert (select_from (C := demo) 0 (nodes world0) (Some "lab-02") None
          = [(1%nat, lab02)]) as Hsel by reflexivity.
  split; [exact Hsel|]. split; [discriminate|].
  exact (release_force (C := demo) alice (Some "lab-02") true world0 1
           lab02 Hsel).
Defined.

Lemma group_nothing_to_do_witness :
  select_from (C := demo) 0 (nodes world0) (Some "lab-01") None
  = [(0%nat, lab01)]
  ∧ truthy None = false ∧ truthy (Some "") = false
  ∧ main (C := demo) alice
      (GROUP (Some "lab-01") (Some "") false false None None) world0
    = (Ok tt, with_request (Some "lab-01", None) world0).
Proof.
  assert (select_from (C := demo) 0 (nodes world0) (Some "lab-01") None
          = [(0%nat, lab01)]) as Hsel by reflexivity.
  split; [exact Hsel|]. split; [reflexivity|]. split; [reflexivity|].
  exact (group_nothing_to_do (C := demo) alice (Some "lab-01") (Some "")
           None None world0 0 lab01 Hsel eq_refl eq_refl eq_refl).
Defined.
